(** * pdf_to_image: first page of a PDF rasterised to a grayscale PNG

    A shallow embedding of [src/engine/pdf_to_image.c] (its two functions
    [write_png_fast] and [main]) together with a model of the parts of
    MuPDF, libpng and libc that the program calls.  The program is glue
    code: every statement of the C source is one call below, in the same
    order, written in a small state-and-exit monad over an explicit world
    (file system, memory, trace of external calls). *)

From Stdlib Require Import ZArith QArith Qround Qminmax Lia.
From stdpp Require Import base option list strings gmap.
From Stdlib Require Import Strings.Byte.

Local Open Scope Z_scope.

(** ** Geometry (mupdf/fitz.h)

    C [float] coordinates are modelled by rationals.  The only arithmetic
    the program asks for is a scale by 4.0, a power of two, which binary
    floating point performs exactly on finite values. *)

Record fz_rect := mk_rect { x0 : Q; y0 : Q; x1 : Q; y1 : Q }.
Record fz_irect := mk_irect { ix0 : Z; iy0 : Z; ix1 : Z; iy1 : Z }.
Record fz_point := mk_point { px : Q; py : Q }.
Record fz_matrix := mk_matrix { ma : Q; mb : Q; mc : Q; md : Q; me : Q; mf : Q }.

Definition fz_identity : fz_matrix := mk_matrix 1 0 0 1 0 0.

(** [fz_scale(sx, sy)]: the matrix [sx 0 0 sy 0 0]. *)
Definition fz_scale (sx sy : Q) : fz_matrix := mk_matrix sx 0 0 sy 0 0.

(** [fz_concat(one, two)]: first [one], then [two]. *)
Definition fz_concat (one two : fz_matrix) : fz_matrix :=
  mk_matrix
    (ma one * ma two + mb one * mc two)
    (ma one * mb two + mb one * md two)
    (mc one * ma two + md one * mc two)
    (mc one * mb two + md one * md two)
    (me one * ma two + mf one * mc two + me two)
    (me one * mb two + mf one * md two + mf two)%Q.

Definition fz_transform_point (p : fz_point) (m : fz_matrix) : fz_point :=
  mk_point (px p * ma m + py p * mc m + me m)
           (px p * mb m + py p * md m + mf m)%Q.

Definition Qmin4 (p q r s : Q) : Q := Qmin (Qmin p q) (Qmin r s).
Definition Qmax4 (p q r s : Q) : Q := Qmax (Qmax p q) (Qmax r s).

(** Modelled from the spec: MuPDF's [fz_transform_rect] is not under src/;
    section 4.1 step 4 applies the transform to the bounding rectangle.  The
    result is the axis-aligned box around the four transformed corners. *)
Definition fz_transform_rect (r : fz_rect) (m : fz_matrix) : fz_rect :=
  let s := fz_transform_point (mk_point (x0 r) (y0 r)) m in
  let t := fz_transform_point (mk_point (x0 r) (y1 r)) m in
  let u := fz_transform_point (mk_point (x1 r) (y1 r)) m in
  let v := fz_transform_point (mk_point (x1 r) (y0 r)) m in
  mk_rect (Qmin4 (px s) (px t) (px u) (px v)) (Qmin4 (py s) (py t) (py u) (py v))
          (Qmax4 (px s) (px t) (px u) (px v)) (Qmax4 (py s) (py t) (py u) (py v)).

(** Modelled from the spec: MuPDF's [fz_round_rect] is not under src/;
    section 4.1 step 4 rounds the rectangle outward to integer pixel
    bounds: the top left corner down, the bottom right corner up. *)
Definition fz_round_rect (r : fz_rect) : fz_irect :=
  mk_irect (Qfloor (x0 r)) (Qfloor (y0 r)) (Qceiling (x1 r)) (Qceiling (y1 r)).

(** ** Documents and pages *)

Record fz_page := mk_page {
  mediabox : fz_rect;          (* intrinsic bounding box, in points *)
  contents : list byte         (* the page's vector content, opaque here *)
}.

Record fz_document := mk_document { pages : list fz_page }.

Definition fz_bound_page (page : fz_page) : fz_rect := mediabox page.

Inductive fz_error := DocumentOpenError | PageLoadError.

(** ** Pixmaps *)

Record fz_colorspace := mk_colorspace { cs_n : Z }.
Definition fz_device_gray : fz_colorspace := mk_colorspace 1.

Record fz_pixmap := mk_pixmap {
  x : Z; y : Z; w : Z; h : Z;
  n : Z;                       (* components per pixel, alpha included *)
  alpha : Z;
  stride : Z;                  (* bytes per row *)
  samples : Z                  (* address of the first sample *)
}.

Definition fz_pixmap_bbox (pix : fz_pixmap) : fz_irect :=
  mk_irect (x pix) (y pix) (x pix + w pix) (y pix + h pix).

Record fz_device := mk_device {
  transform : fz_matrix;       (* user space to device space *)
  dest : fz_pixmap
}.

(** ** libpng objects and constants (png.h, zlib.h) *)

Definition PNG_COLOR_TYPE_GRAY : Z := 0.
Definition PNG_INTERLACE_NONE : Z := 0.
Definition PNG_COMPRESSION_TYPE_DEFAULT : Z := 0.
Definition PNG_FILTER_TYPE_DEFAULT : Z := 0.

(** zlib's levels: 0 stores the data without compressing it, 1 to 9 trade
    speed for size, -1 asks for the library default. *)
Definition Z_NO_COMPRESSION : Z := 0.
Definition Z_BEST_SPEED : Z := 1.
Definition Z_BEST_COMPRESSION : Z := 9.
Definition Z_DEFAULT_COMPRESSION : Z := -1.

Record png_IHDR := mk_IHDR {
  width : Z; height : Z; bit_depth : Z; color_type : Z;
  interlace_type : Z; compression_type : Z; filter_type : Z
}.

Record png_struct := mk_png {
  io_ptr : option string;        (* the FILE the stream is written to *)
  zlib_level : Z;
  IHDR : option png_IHDR;
  info_written : bool;
  rows_written : list (list byte);
  end_written : bool
}.

Definition png_fresh : png_struct :=
  mk_png None Z_DEFAULT_COMPRESSION None false [] false.

(** Bytes of one row for the declared header: one 8-bit channel per pixel
    for grayscale. *)
Definition png_rowbytes (i : png_IHDR) : Z := width i * (bit_depth i / 8).

(** The libpng entry points that can raise [png_error]. *)
Inductive png_call :=
| call_set_IHDR | call_write_info | call_write_row (row : nat) | call_write_end.

(** ** The outside world *)

Record timespec := mk_timespec { tv_sec : Z; tv_nsec : Z }.

(** What the run cannot control: permissions, I/O faults, the clock and
    where the allocator places a block. *)
Record environment := mk_environment {
  readable : string -> bool;
  writable : string -> bool;
  png_fault : png_call -> bool;
  strerror : string;             (* text of errno after a failed fopen *)
  clock : nat -> timespec;
  malloc_base : Z
}.

(** The opaque services of the libraries: the document parser; the
    rasteriser (the samples it stores, as offset and value, given the page,
    the matrix in force, the destination's box, its components per pixel
    and its current samples); the PNG stream writer (the bytes on file for
    the calls made so far); printf's rendering of seconds and nanoseconds
    with three decimals. *)
Record services := mk_services {
  parse_document : list byte -> option fz_document;
  rasterize : fz_page -> fz_matrix -> fz_irect -> Z -> list byte -> list (Z * byte);
  png_bytes : png_struct -> list byte;
  format_3f : Z -> Z -> string
}.

(** What the run does outside itself, logged in order: the library calls
    of the program with their arguments, and the one call the draw device
    makes to the rasteriser. *)
Inductive event :=
| ev_stderr (s : string)
| ev_stdout (s : string)
| ev_fz_open_document (path : string)
| ev_fz_load_page (number : Z)
| ev_fz_new_pixmap (bbox : fz_irect) (with_alpha : Z)
| ev_fz_clear_pixmap (value : Z)
| ev_fz_new_draw_device (m : fz_matrix)
| ev_fz_run_page (ctm : fz_matrix)
| ev_rasterize (m : fz_matrix) (bbox : fz_irect) (current : list byte)
| ev_fopen (path mode : string)
| ev_fclose (path : string)
| ev_png_set_compression_level (level : Z)
| ev_png_set_IHDR (i : png_IHDR)
| ev_png_write_info
| ev_png_write_row (row : Z) (bytes : list byte)
| ev_png_write_end.

Record world := mk_world {
  fs : gmap string (list byte);  (* files by path *)
  mem : gmap Z byte;             (* initialised bytes by address *)
  png : png_struct;              (* the one libpng writer *)
  ticks : nat;                   (* clock readings so far *)
  trace : list event
}.

Definition set_fs (g : gmap string (list byte) -> gmap string (list byte)) (wd : world) : world :=
  mk_world (g (fs wd)) (mem wd) (png wd) (ticks wd) (trace wd).
Definition set_mem (g : gmap Z byte -> gmap Z byte) (wd : world) : world :=
  mk_world (fs wd) (g (mem wd)) (png wd) (ticks wd) (trace wd).
Definition set_png (g : png_struct -> png_struct) (wd : world) : world :=
  mk_world (fs wd) (mem wd) (g (png wd)) (ticks wd) (trace wd).
Definition tick (wd : world) : world :=
  mk_world (fs wd) (mem wd) (png wd) (S (ticks wd)) (trace wd).
Definition emit (ev : event) (wd : world) : world :=
  mk_world (fs wd) (mem wd) (png wd) (ticks wd) (trace wd ++ [ev]).

(** ** The monad: state, process exit, and libpng's longjmp *)

Inductive outcome :=
| Exited (status : Z)            (* exit(status) or return from main *)
| FzUncaught (err : fz_error)    (* fz_throw with no fz_try around it *)
| Undefined.                     (* a read outside initialised memory *)

Inductive result (A : Type) :=
| Ok (v : A)
| PngError                       (* longjmp to the png_jmpbuf *)
| Stop (o : outcome).
Arguments Ok {A} v.
Arguments PngError {A}.
Arguments Stop {A} o.

Definition M (A : Type) : Type := world -> result A * world.

Definition ret {A} (v : A) : M A := fun wd => (Ok v, wd).

Definition bind {A B} (m : M A) (k : A -> M B) : M B :=
  fun wd =>
    match m wd with
    | (Ok v, wd') => k v wd'
    | (PngError, wd') => (PngError, wd')
    | (Stop o, wd') => (Stop o, wd')
    end.

Declare Scope prog_scope.
Delimit Scope prog_scope with prog.
Notation "v <- m ;; k" := (bind m (fun v => k))
  (at level 100, m at next level, k at level 200, right associativity) : prog_scope.
Notation "m ;; k" := (bind m (fun _ => k))
  (at level 100, k at level 200, right associativity) : prog_scope.
Local Open Scope prog_scope.

Definition modify (g : world -> world) : M unit := fun wd => (Ok tt, g wd).
Definition log (ev : event) : M unit := modify (emit ev).
Definition exit {A} (status : Z) : M A := fun wd => (Stop (Exited status), wd).
Definition fz_throw {A} (err : fz_error) : M A := fun wd => (Stop (FzUncaught err), wd).
Definition png_error {A} : M A := fun wd => (PngError, wd).
Definition undefined {A} : M A := fun wd => (Stop Undefined, wd).

(** [if (setjmp(png_jmpbuf(png))) handler; body]: the body runs, and a
    [png_error] inside it resumes in the handler. *)
Definition setjmp {A} (handler body : M A) : M A :=
  fun wd =>
    match body wd with
    | (PngError, wd') => handler wd'
    | r => r
    end.

(** ** Updates of the libpng writer *)

Definition png_with_io (fp : string) (p : png_struct) : png_struct :=
  mk_png (Some fp) (zlib_level p) (IHDR p) (info_written p) (rows_written p) (end_written p).
Definition png_with_level (level : Z) (p : png_struct) : png_struct :=
  mk_png (io_ptr p) level (IHDR p) (info_written p) (rows_written p) (end_written p).
Definition png_with_IHDR (i : png_IHDR) (p : png_struct) : png_struct :=
  mk_png (io_ptr p) (zlib_level p) (Some i) (info_written p) (rows_written p) (end_written p).
Definition png_with_info (p : png_struct) : png_struct :=
  mk_png (io_ptr p) (zlib_level p) (IHDR p) true (rows_written p) (end_written p).
Definition png_with_row (bytes : list byte) (p : png_struct) : png_struct :=
  mk_png (io_ptr p) (zlib_level p) (IHDR p) (info_written p)
         (rows_written p ++ [bytes]) (end_written p).
Definition png_with_end (p : png_struct) : png_struct :=
  mk_png (io_ptr p) (zlib_level p) (IHDR p) (info_written p) (rows_written p) true.

(** What is on file is what libpng emitted for the calls so far. *)
Definition png_flushed (L : services) (wd : world) : world :=
  match io_ptr (png wd) with
  | Some fp => set_fs (fun g => <[fp := png_bytes L (png wd)]> g) wd
  | None => wd
  end.

(** ** Memory *)

(** [size_t] arithmetic wraps at the word size (LP64). *)
Definition SIZE_WIDTH : Z := 64.
Definition size_t (v : Z) : Z := v mod 2 ^ SIZE_WIDTH.

Definition byte_of_int (v : Z) : byte :=
  default Byte.x00 (Byte.of_N (Z.to_N (v mod 256))).

Definition memset (m : gmap Z byte) (s : Z) (v : byte) (len : Z) : gmap Z byte :=
  foldr (fun a acc => <[a := v]> acc) m (seqZ s len).

(** A fresh block holds no defined byte, whatever was there before. *)
Definition mem_undef (m : gmap Z byte) (s len : Z) : gmap Z byte :=
  foldr (fun a acc => delete a acc) m (seqZ s len).

(** Reading [len] bytes at [s]; [None] when one of them is not defined. *)
Definition mem_read (m : gmap Z byte) (s len : Z) : option (list byte) :=
  mapM (fun a => m !! a) (seqZ s len).

(** ** The library calls, over a fixed environment *)

Section Program.

Context (L : services) (E : environment).

(** *** libc *)

Definition newline : string := String (Ascii.ascii_of_nat 10) EmptyString.

Definition fprintf_stderr (s : string) : M unit := log (ev_stderr s).
Definition printf (s : string) : M unit := log (ev_stdout s).
Definition perror (s : string) : M unit :=
  log (ev_stderr (s +:+ ": " +:+ strerror E +:+ newline)).

(** [snprintf(buf, size, ...)] keeps at most [size - 1] characters. *)
Definition snprintf (size : nat) (s : string) : string :=
  String.substring 0 (size - 1) s.

(** [fopen(path, "wb")]: creates the file, or empties the one there.  A
    file is the string of its path: two spellings of one path ("in.png",
    "./in.png") are two keys of [fs], so statements about a path other than
    the one opened hold up to such aliases only. *)
Definition fopen (path mode : string) : M (option string) :=
  log (ev_fopen path mode) ;;
  if writable E path
  then modify (set_fs (fun g => <[path := []]> g)) ;; ret (Some path)
  else ret None.

Definition fclose (fp : string) : M unit := log (ev_fclose fp).

Definition free {A} (block : A) : M unit := ret tt.

(** [clock_gettime(CLOCK_MONOTONIC, &t)]: the next reading of the clock.
    It is counted in [ticks], not logged in the trace. *)
Definition clock_gettime : M timespec :=
  fun wd => (Ok (clock E (ticks wd)), tick wd).

(** *** MuPDF

    The calls that only allocate or release are taken to succeed and log
    nothing: running out of memory is outside the model, here and for
    [malloc] and [png_create_write_struct] below. *)

Definition fz_new_context : M unit := ret tt.
Definition fz_register_document_handlers : M unit := ret tt.

(** [fz_open_document(ctx, path)]: throws when the file is missing, cannot
    be read or does not parse. *)
Definition fz_open_document (path : string) : M fz_document :=
  log (ev_fz_open_document path) ;;
  fun wd =>
    match (if readable E path then fs wd !! path else None) with
    | Some bytes =>
        match parse_document L bytes with
        | Some doc => ret doc wd
        | None => fz_throw DocumentOpenError wd
        end
    | None => fz_throw DocumentOpenError wd
    end.

(** [fz_load_page(ctx, doc, number)]: throws when the document has no such
    page. *)
Definition fz_load_page (doc : fz_document) (number : Z) : M fz_page :=
  log (ev_fz_load_page number) ;;
  match (if 0 <=? number then pages doc !! Z.to_nat number else None) with
  | Some page => ret page
  | None => fz_throw PageLoadError
  end.

(** [fz_new_pixmap_with_bbox(ctx, colorspace, bbox, seps, alpha)]: a pixmap
    covering [bbox], one sample per colorant and one more with alpha, rows
    packed, samples left uninitialised. *)
Definition fz_new_pixmap_with_bbox (cs : fz_colorspace) (bbox : fz_irect) (with_alpha : Z)
  : M fz_pixmap :=
  log (ev_fz_new_pixmap bbox with_alpha) ;;
  let pw := ix1 bbox - ix0 bbox in
  let ph := iy1 bbox - iy0 bbox in
  let pn := cs_n cs + (if with_alpha =? 0 then 0 else 1) in
  let pix := mk_pixmap (ix0 bbox) (iy0 bbox) pw ph pn with_alpha (pn * pw) (malloc_base E) in
  modify (set_mem (fun m => mem_undef m (samples pix) (stride pix * h pix))) ;;
  ret pix.

(** Modelled from the spec: MuPDF's [fz_clear_pixmap_with_value] is not
    under src/; section 4.1 step 5 fills every sample with the value. *)
Definition fz_clear_pixmap_with_value (pix : fz_pixmap) (value : Z) : M unit :=
  log (ev_fz_clear_pixmap value) ;;
  modify (set_mem (fun m => memset m (samples pix) (byte_of_int value) (stride pix * h pix))).

Definition fz_new_draw_device (m : fz_matrix) (pix : fz_pixmap) : M fz_device :=
  log (ev_fz_new_draw_device m) ;;
  ret (mk_device m pix).

(** The matrix the draw device rasterises with: MuPDF's draw device maps
    each object by the matrix it is run with followed by its own
    [transform] (library code such as fz_new_pixmap_from_page gives one of
    the two as [fz_identity]). *)
Definition effective_ctm (dev : fz_device) (ctm : fz_matrix) : fz_matrix :=
  fz_concat ctm (transform dev).

(** The device stores samples inside its destination only. *)
Definition store_clipped (pix : fz_pixmap) (writes : list (Z * byte)) (m : gmap Z byte)
  : gmap Z byte :=
  foldl (fun acc '(off, v) =>
           if bool_decide (0 <= off < stride pix * h pix)
           then <[samples pix + off := v]> acc else acc)
        m writes.

(** [fz_run_page(ctx, page, dev, ctm, cookie)]: the page's content goes
    through the device, which blends it into the destination's samples. *)
Definition fz_run_page (page : fz_page) (dev : fz_device) (ctm : fz_matrix) : M unit :=
  log (ev_fz_run_page ctm) ;;
  fun wd =>
    let pix := dest dev in
    match mem_read (mem wd) (samples pix) (stride pix * h pix) with
    | None => undefined wd
    | Some current =>
        let m := effective_ctm dev ctm in
        (log (ev_rasterize m (fz_pixmap_bbox pix) current) ;;
         modify (set_mem (store_clipped pix
                   (rasterize L page m (fz_pixmap_bbox pix) (n pix) current)))) wd
    end.

Definition fz_close_device (dev : fz_device) : M unit := ret tt.
Definition fz_drop_device (dev : fz_device) : M unit := ret tt.
Definition fz_drop_pixmap (pix : fz_pixmap) : M unit := ret tt.
Definition fz_drop_page (page : fz_page) : M unit := ret tt.
Definition fz_drop_document (doc : fz_document) : M unit := ret tt.
Definition fz_drop_context : M unit := ret tt.

(** *** libpng *)

Definition png_create_write_struct : M unit := modify (set_png (fun _ => png_fresh)).
Definition png_create_info_struct : M unit := ret tt.
Definition png_destroy_write_struct : M unit := ret tt.

Definition png_init_io (fp : string) : M unit :=
  modify (set_png (png_with_io fp)).

Definition png_set_compression_level (level : Z) : M unit :=
  log (ev_png_set_compression_level level) ;;
  modify (set_png (png_with_level level)).

Definition png_may_fail (c : png_call) : M unit :=
  if png_fault E c then png_error else ret tt.

Definition png_flush : M unit := modify (png_flushed L).

(** The width and height are logged as passed; their conversion to
    [png_uint_32] changes nothing for sizes that are not negative. *)
Definition png_set_IHDR (pw ph depth color interlace compression filter : Z) : M unit :=
  let i := mk_IHDR pw ph depth color interlace compression filter in
  log (ev_png_set_IHDR i) ;;
  png_may_fail call_set_IHDR ;;
  modify (set_png (png_with_IHDR i)).

Definition png_write_info : M unit :=
  log ev_png_write_info ;;
  png_may_fail call_write_info ;;
  modify (set_png png_with_info) ;;
  png_flush.

(** [png_write_row(png, row)]: reads one row of [rowbytes] bytes at [row].
    A call in which libpng fails is taken to fail before it touches the row. *)
Definition png_write_row (k : nat) (row : Z) : M unit :=
  png_may_fail (call_write_row k) ;;
  fun wd =>
    match IHDR (png wd) with
    | None => png_error wd
    | Some i =>
        match mem_read (mem wd) row (png_rowbytes i) with
        | None => undefined wd
        | Some bytes =>
            (log (ev_png_write_row row bytes) ;;
             modify (set_png (png_with_row bytes)) ;;
             png_flush) wd
        end
    end.

(** [png_write_image(png, image)]: for (i = 0; i < height; i++)
    png_write_row(png, image[i]). *)
Fixpoint png_write_rows (image : list Z) (i count : nat) : M unit :=
  match count with
  | O => ret tt
  | S count' =>
      match image !! i with
      | None => undefined
      | Some row => png_write_row i row ;; png_write_rows image (S i) count'
      end
  end.

Definition png_write_image (image : list Z) : M unit :=
  fun wd =>
    match IHDR (png wd) with
    | None => png_error wd
    | Some i => png_write_rows image 0 (Z.to_nat (height i)) wd
    end.

Definition png_write_end : M unit :=
  log ev_png_write_end ;;
  png_may_fail call_write_end ;;
  modify (set_png png_with_end) ;;
  png_flush.

End Program.

(** ** The program (src/engine/pdf_to_image.c) *)

Section Source.

Context (L : services) (E : environment).

(** Lines 28-30: [for (int y = 0; y < pix->h; ++y)
    rows[y] = pix->samples + (size_t)y * pix->stride;]
    The product wraps as [size_t] does; the pointer sum is kept exact, which
    is what the machine computes as long as [stride] is not negative and
    the buffer lies inside the address space. *)
Fixpoint rows_loop (fuel : nat) (pix : fz_pixmap) (y : Z) (rows : list Z) : list Z :=
  match fuel with
  | O => rows
  | S fuel' =>
      if y <? h pix
      then rows_loop fuel' pix (y + 1) (rows ++ [samples pix + size_t (y * stride pix)])
      else rows
  end.

Definition build_rows (pix : fz_pixmap) : list Z :=
  rows_loop (Z.to_nat (h pix)) pix 0 [].

(** Lines 9-37. *)
Definition write_png_fast (pix : fz_pixmap) (fname : string) : M unit :=
  fp <- fopen E fname "wb" ;;
  match fp with
  | None => perror E "fopen" ;; exit 2
  | Some fp =>
      png_create_write_struct ;;
      png_create_info_struct ;;
      setjmp (fclose fp ;; exit 3)
        (png_init_io fp ;;
         png_set_compression_level 1 ;;
         png_set_IHDR E (w pix) (h pix) 8
           PNG_COLOR_TYPE_GRAY PNG_INTERLACE_NONE
           PNG_COMPRESSION_TYPE_DEFAULT PNG_FILTER_TYPE_DEFAULT ;;
         png_write_info L E ;;
         let rows := build_rows pix in
         png_write_image L E rows ;;
         png_write_end L E ;;
         free rows ;;
         png_destroy_write_struct ;;
         fclose fp)
  end.

(** Lines 40-73.  [argv] holds the program name and the arguments;
    [argc] is its length.  With an empty [argv] the usage line shows what
    printf makes of a null string. *)
Definition main (argv : list string) : M Z :=
  if negb (Z.of_nat (length argv) =? 3)
  then
    fprintf_stderr ("usage: " +:+ nth 0 argv "(null)" +:+ " in.pdf out_prefix" +:+ newline) ;;
    ret 1
  else
    t0 <- clock_gettime E ;;
    fz_new_context ;;
    fz_register_document_handlers ;;
    doc <- fz_open_document L E (nth 1 argv "") ;;
    page <- fz_load_page doc 0 ;;
    let mtx := fz_scale 4 4 in
    let bboxf := fz_transform_rect (fz_bound_page page) mtx in
    let bbox := fz_round_rect bboxf in
    pix <- fz_new_pixmap_with_bbox E fz_device_gray bbox 1 ;;
    fz_clear_pixmap_with_value pix 255 ;;
    dev <- fz_new_draw_device mtx pix ;;
    fz_run_page L page dev mtx ;;
    fz_close_device dev ;;
    let out_name := snprintf 256 (nth 2 argv "" +:+ ".png") in
    write_png_fast pix out_name ;;
    t1 <- clock_gettime E ;;
    printf ("C yielded " +:+ out_name +:+ " in "
            +:+ format_3f L (tv_sec t1 - tv_sec t0) (tv_nsec t1 - tv_nsec t0)
            +:+ " s" +:+ newline) ;;
    fz_drop_device dev ;; fz_drop_pixmap pix ;;
    fz_drop_page page ;; fz_drop_document doc ;;
    fz_drop_context ;; ret 0.

(** The process: how it ends and the world it leaves. *)
Definition run (argv : list string) (wd : world) : outcome * world :=
  match main argv wd with
  | (Ok status, wd') => (Exited status, wd')
  | (PngError, wd') => (Undefined, wd')
  | (Stop o, wd') => (o, wd')
  end.

End Source.

(** ** A small concrete setting *)

Definition letter : fz_rect := mk_rect 0 0 612 792.
Definition tiny : fz_rect := mk_rect 0 0 (1 # 2) (3 # 4).

Definition demo_services : services :=
  mk_services
    (fun bytes => match bytes with
                  | [] => None
                  | _ => Some (mk_document [mk_page tiny bytes])
                  end)
    (fun page ctm bbox pn current => [(1, Byte.x00); (100, Byte.x07)])
    (fun p => concat (rows_written p))
    (fun _ _ => "0.000").

Definition letter_services : services :=
  mk_services
    (fun bytes => match bytes with
                  | [] => None
                  | _ => Some (mk_document [mk_page letter bytes])
                  end)
    (fun page ctm bbox pn current => [])
    (fun p => concat (rows_written p))
    (fun _ _ => "0.000").

Definition demo_environment : environment :=
  mk_environment (fun _ => true) (fun _ => true) (fun _ => false)
                 "Permission denied" (fun k => mk_timespec (Z.of_nat k) 0) 4096.

Definition demo_world : world :=
  mk_world {[ "in.pdf" := [Byte.x25; Byte.x50] ]} ∅ png_fresh 0 [].

(** ** Vocabulary for the statements *)

(** The block at [s] holds exactly [buf]. *)
Definition holds (m : gmap Z byte) (s : Z) (buf : list byte) : Prop :=
  mem_read m s (Z.of_nat (length buf)) = Some buf.

(** [len] bytes of a buffer from offset [off]. *)
Definition row_of (buf : list byte) (off len : Z) : list byte :=
  take (Z.to_nat len) (drop (Z.to_nat off) buf).

(** [store_clipped] seen on the buffer itself. *)
Definition blend_in (size : Z) (writes : list (Z * byte)) (buf : list byte) : list byte :=
  foldl (fun acc '(off, v) =>
           if bool_decide (0 <= off < size)
           then <[Z.to_nat off := v]> acc else acc)
        buf writes.

Definition blend (writes : list (Z * byte)) (buf : list byte) : list byte :=
  blend_in (Z.of_nat (length buf)) writes buf.

(** The row pointers of a pixmap and the bytes libpng reads through them. *)
Definition row_offset (pix : fz_pixmap) (row : Z) : Z := size_t (row * stride pix).

Definition scan (pix : fz_pixmap) (buf : list byte) : list (Z * list byte) :=
  (fun row => (samples pix + row_offset pix row, row_of buf (row_offset pix row) (w pix)))
    <$> seqZ 0 (h pix).

Definition png_with_rows (rows : list (list byte)) (p : png_struct) : png_struct :=
  mk_png (io_ptr p) (zlib_level p) (IHDR p) (info_written p)
         (rows_written p ++ rows) (end_written p).

(** One successful [png_write_row]. *)
Definition row_step (L : services) (wd : world) (r : Z * list byte) : world :=
  png_flushed L (set_png (png_with_row r.2) (emit (ev_png_write_row r.1 r.2) wd)).

(** Rows written before libpng's first fault among rows [i .. i+count-1]. *)
Fixpoint rows_ok (E : environment) (i count : nat) : nat :=
  match count with
  | O => O
  | S count' => if png_fault E (call_write_row i) then O else S (rows_ok E (S i) count')
  end.

(** The scanlines in a trace, in order. *)
Definition scanlines (tr : list event) : list (Z * list byte) :=
  omap (fun ev => match ev with ev_png_write_row row bytes => Some (row, bytes) | _ => None end) tr.

Definition no_png_fault (E : environment) : Prop := forall c, png_fault E c = false.

(** Closed form of [write_png_fast] on a pixmap whose buffer holds [buf]:
    the five ways it can end.  [write_png_fast_spec] proves it equal to
    the program. *)
Definition gray_IHDR (pix : fz_pixmap) : png_IHDR :=
  mk_IHDR (w pix) (h pix) 8 PNG_COLOR_TYPE_GRAY PNG_INTERLACE_NONE
          PNG_COMPRESSION_TYPE_DEFAULT PNG_FILTER_TYPE_DEFAULT.

Definition encoded (L : services) (E : environment) (pix : fz_pixmap) (buf : list byte)
    (fname : string) (wd : world) : result unit * world :=
  let wd0 := emit (ev_fopen fname "wb") wd in
  if writable E fname then
    let wd1 :=
      emit (ev_png_set_IHDR (gray_IHDR pix))
        (set_png (png_with_level 1)
          (emit (ev_png_set_compression_level 1)
            (set_png (png_with_io fname)
              (set_png (fun _ => png_fresh)
                (set_fs (fun g => <[fname := []]> g) wd0))))) in
    if png_fault E call_set_IHDR then (Stop (Exited 3), emit (ev_fclose fname) wd1) else
    let wd2 := emit ev_png_write_info (set_png (png_with_IHDR (gray_IHDR pix)) wd1) in
    if png_fault E call_write_info then (Stop (Exited 3), emit (ev_fclose fname) wd2) else
    let wd3 := png_flushed L (set_png png_with_info wd2) in
    let k := rows_ok E 0 (Z.to_nat (h pix)) in
    let wd4 := foldl (row_step L) wd3 (take k (scan pix buf)) in
    if decide (k = Z.to_nat (h pix)) then
      let wd5 := emit ev_png_write_end wd4 in
      if png_fault E call_write_end then (Stop (Exited 3), emit (ev_fclose fname) wd5) else
      (Ok tt, emit (ev_fclose fname) (png_flushed L (set_png png_with_end wd5)))
    else (Stop (Exited 3), emit (ev_fclose fname) wd4)
  else
    (Stop (Exited 2), emit (ev_stderr ("fopen" +:+ ": " +:+ strerror E +:+ newline)) wd0).

(** The document the engine opens at a path, if it can. *)
Definition document_at (L : services) (E : environment) (wd : world) (path : string)
  : option fz_document :=
  match (if readable E path then fs wd !! path else None) with
  | Some bytes => parse_document L bytes
  | None => None
  end.

Definition first_page (doc : fz_document) : option fz_page := pages doc !! O.

(** What [main] computes on the way, as functions of the page. *)
Definition zoom : fz_matrix := fz_scale 4 4.

Definition page_bbox (page : fz_page) : fz_irect :=
  fz_round_rect (fz_transform_rect (fz_bound_page page) zoom).

Definition page_pixmap (E : environment) (page : fz_page) : fz_pixmap :=
  let bbox := page_bbox page in
  mk_pixmap (ix0 bbox) (iy0 bbox) (ix1 bbox - ix0 bbox) (iy1 bbox - iy0 bbox)
            2 1 (2 * (ix1 bbox - ix0 bbox)) (malloc_base E).

Definition buffer_size (pix : fz_pixmap) : Z := stride pix * h pix.

Definition canvas (pix : fz_pixmap) : list byte :=
  replicate (Z.to_nat (buffer_size pix)) (byte_of_int 255).

Definition page_writes (L : services) (page : fz_page) (pix : fz_pixmap) : list (Z * byte) :=
  rasterize L page (fz_concat zoom zoom) (fz_pixmap_bbox pix) (n pix) (canvas pix).

Definition drawn (L : services) (page : fz_page) (pix : fz_pixmap) : list byte :=
  blend (page_writes L page pix) (canvas pix).

Definition out_name (prefix : string) : string := snprintf 256 (prefix +:+ ".png").

Definition usage (prog : string) : string :=
  "usage: " +:+ prog +:+ " in.pdf out_prefix" +:+ newline.

(** The world when [write_png_fast] is called. *)
Definition rendered (L : services) (E : environment) (inp : string) (page : fz_page)
    (wd : world) : world :=
  let pix := page_pixmap E page in
  set_mem (store_clipped pix (page_writes L page pix))
    (emit (ev_rasterize (fz_concat zoom zoom) (fz_pixmap_bbox pix) (canvas pix))
      (emit (ev_fz_run_page zoom)
        (emit (ev_fz_new_draw_device zoom)
          (set_mem (fun m => memset m (samples pix) (byte_of_int 255) (buffer_size pix))
            (emit (ev_fz_clear_pixmap 255)
              (set_mem (fun m => mem_undef m (samples pix) (buffer_size pix))
                (emit (ev_fz_new_pixmap (page_bbox page) 1)
                  (emit (ev_fz_load_page 0)
                    (emit (ev_fz_open_document inp) (tick wd)))))))))).

(** How the process ends once the encoder has returned. *)
Definition finished (L : services) (E : environment) (prefix : string) (t0 : timespec)
    (r : result unit * world) : outcome * world :=
  match r with
  | (Ok _, wd') =>
      let t1 := clock E (ticks wd') in
      (Exited 0,
       emit (ev_stdout ("C yielded " +:+ out_name prefix +:+ " in "
                        +:+ format_3f L (tv_sec t1 - tv_sec t0) (tv_nsec t1 - tv_nsec t0)
                        +:+ " s" +:+ newline)) (tick wd'))
  | (PngError, wd') => (Undefined, wd')
  | (Stop o, wd') => (o, wd')
  end.

Definition valid_rect (r : fz_rect) : Prop :=
  (x0 r <= x1 r)%Q /\ (y0 r <= y1 r)%Q.

(** The libpng writer once the header is out, and what the encoder leaves
    on file and returns, whatever the faults: projections of [encoded]. *)
Definition png_headed (hdr : png_IHDR) (fname : string) : png_struct :=
  png_with_info (png_with_IHDR hdr (png_with_level 1 (png_with_io fname png_fresh))).

Definition encoded_fs (L : services) (E : environment) (hdr : png_IHDR)
    (rows : list (list byte)) (fname : string) (g : gmap string (list byte))
  : gmap string (list byte) :=
  if writable E fname then
    if png_fault E call_set_IHDR then <[fname := []]> g else
    if png_fault E call_write_info then <[fname := []]> g else
    let k := rows_ok E 0 (Z.to_nat (height hdr)) in
    let p := png_with_rows (take k rows) (png_headed hdr fname) in
    if decide (k = Z.to_nat (height hdr)) then
      if png_fault E call_write_end then <[fname := png_bytes L p]> g
      else <[fname := png_bytes L (png_with_end p)]> g
    else <[fname := png_bytes L p]> g
  else g.

Definition encoded_result (E : environment) (rows : Z) (fname : string) : result unit :=
  if writable E fname then
    if png_fault E call_set_IHDR then Stop (Exited 3) else
    if png_fault E call_write_info then Stop (Exited 3) else
    if decide (rows_ok E 0 (Z.to_nat rows) = Z.to_nat rows) then
      if png_fault E call_write_end then Stop (Exited 3) else Ok tt
    else Stop (Exited 3)
  else Stop (Exited 2).

Definition row_events (rows : list (Z * list byte)) : list event :=
  (fun r => ev_png_write_row r.1 r.2) <$> rows.

(** What a fault-free encoder run logs and leaves in the writer. *)
Definition encoder_events (pix : fz_pixmap) (buf : list byte) (fname : string) : list event :=
  [ev_fopen fname "wb"; ev_png_set_compression_level 1;
   ev_png_set_IHDR (gray_IHDR pix); ev_png_write_info]
  ++ row_events (scan pix buf)
  ++ [ev_png_write_end; ev_fclose fname].

Definition png_complete (pix : fz_pixmap) (buf : list byte) (fname : string) : png_struct :=
  png_with_end (png_with_rows (scan pix buf).*2 (png_headed (gray_IHDR pix) fname)).

(** What the encoder logs, whatever the faults. *)
Definition encoder_trace (E : environment) (pix : fz_pixmap) (buf : list byte)
    (fname : string) : list event :=
  ev_fopen fname "wb" ::
  if writable E fname then
    [ev_png_set_compression_level 1; ev_png_set_IHDR (gray_IHDR pix)] ++
    if png_fault E call_set_IHDR then [ev_fclose fname] else
    ev_png_write_info ::
    if png_fault E call_write_info then [ev_fclose fname] else
    let k := rows_ok E 0 (Z.to_nat (h pix)) in
    row_events (take k (scan pix buf)) ++
    if decide (k = Z.to_nat (h pix))
    then [ev_png_write_end; ev_fclose fname]
    else [ev_fclose fname]
  else [ev_stderr ("fopen" +:+ ": " +:+ strerror E +:+ newline)].

(** What [main] logs before it calls the encoder. *)
Definition render_events (E : environment) (inp : string) (page : fz_page) : list event :=
  let pix := page_pixmap E page in
  [ev_fz_open_document inp; ev_fz_load_page 0; ev_fz_new_pixmap (page_bbox page) 1;
   ev_fz_clear_pixmap 255; ev_fz_new_draw_device zoom; ev_fz_run_page zoom;
   ev_rasterize (fz_concat zoom zoom) (fz_pixmap_bbox pix) (canvas pix)].

Definition is_stdout (ev : event) : Prop := exists s, ev = ev_stdout s.

Definition outcome_of (r : result unit) : outcome :=
  match r with Ok _ => Exited 0 | PngError => Undefined | Stop o => o end.

(** libpng fails in one of the calls the encoder makes for [rows] rows. *)
Definition png_fails (E : environment) (rows : Z) : Prop :=
  png_fault E call_set_IHDR = true \/
  png_fault E call_write_info = true \/
  (exists k, (k < Z.to_nat rows)%nat /\ png_fault E (call_write_row k) = true) \/
  png_fault E call_write_end = true.

Definition demo_page : fz_page := mk_page tiny [Byte.x25; Byte.x50].
Definition demo_document : fz_document := mk_document [demo_page].
Definition letter_page : fz_page := mk_page letter [Byte.x25; Byte.x50].
Definition letter_document : fz_document := mk_document [letter_page].

(** Environments that differ from [demo_environment] in one respect. *)
Definition readonly_environment : environment :=
  mk_environment (fun _ => true) (fun _ => false) (fun _ => false)
                 "Permission denied" (fun k => mk_timespec (Z.of_nat k) 0) 4096.

Definition faulty_environment : environment :=
  mk_environment (fun _ => true) (fun _ => true)
                 (fun c => match c with call_write_row 1 => true | _ => false end)
                 "Permission denied" (fun k => mk_timespec (Z.of_nat k) 0) 4096.

(** A pixmap as the encoder needs it: rows no longer than the stride, a
    buffer of stride * h bytes that fits the address space and holds [buf]. *)
Definition encodable (pix : fz_pixmap) (buf : list byte) (m : gmap Z byte) : Prop :=
  0 <= w pix <= stride pix /\
  Z.of_nat (length buf) = stride pix * h pix /\
  stride pix * h pix < 2 ^ SIZE_WIDTH /\
  holds m (samples pix) buf.

Definition demo_pixmap : fz_pixmap := page_pixmap demo_environment demo_page.
Definition demo_buffer : list byte := drawn demo_services demo_page demo_pixmap.
Definition demo_rendered : world :=
  rendered demo_services demo_environment "in.pdf" demo_page demo_world.

(** The effort levels zlib accepts, [Z_NO_COMPRESSION] to
    [Z_BEST_COMPRESSION] ([Z_DEFAULT_COMPRESSION] stands for one of them),
    and those among them that deflate the data: all but the level that
    stores it as it is. *)
Definition zlib_level_accepted (level : Z) : Prop :=
  Z_NO_COMPRESSION <= level <= Z_BEST_COMPRESSION.

Definition compresses (level : Z) : Prop :=
  zlib_level_accepted level /\ level <> Z_NO_COMPRESSION.

(** The levels a trace sets, in order. *)
Definition levels_set (tr : list event) : list Z :=
  omap (fun ev => match ev with ev_png_set_compression_level level => Some level | _ => None end)
       tr.

(** The files a trace opens, with their mode, in order. *)
Definition opened (tr : list event) : list (string * string) :=
  omap (fun ev => match ev with ev_fopen path mode => Some (path, mode) | _ => None end) tr.

Fixpoint string_repeat (c : Ascii.ascii) (k : nat) : string :=
  match k with
  | O => EmptyString
  | S k' => String c (string_repeat c k')
  end.

(** A prefix of 252 characters. *)
Definition long_prefix : string := string_repeat (Ascii.ascii_of_nat 97) 252.



(** ** Vocabulary for the further properties *)

(** The files a trace closes and the lines it prints, in order. *)
Definition closed (tr : list event) : list string :=
  omap (fun ev => match ev with ev_fclose path => Some path | _ => None end) tr.

Definition stdouts (tr : list event) : list string :=
  omap (fun ev => match ev with ev_stdout s => Some s | _ => None end) tr.

(** The line of lines 66-67 for two clock readings. *)
Definition success_line (L : services) (prefix : string) (t0 t1 : timespec) : string :=
  "C yielded " +:+ out_name prefix +:+ " in "
  +:+ format_3f L (tv_sec t1 - tv_sec t0) (tv_nsec t1 - tv_nsec t0)
  +:+ " s" +:+ newline.

(** The rows of a buffer at their unwrapped addresses. *)
Definition rows_at (pix : fz_pixmap) (buf : list byte) : list (Z * list byte) :=
  (fun row => (samples pix + row * stride pix, row_of buf (row * stride pix) (w pix)))
    <$> seqZ 0 (h pix).

(** A parser that finds no page in any file. *)
Definition empty_services : services :=
  mk_services (fun _ => Some (mk_document []))
              (fun page ctm bbox pn current => [])
              (fun p => concat (rows_written p))
              (fun _ _ => "0.000").

(** The libpng writer the encoder leaves, whatever the faults. *)
Definition encoded_png (E : environment) (pix : fz_pixmap) (buf : list byte)
    (fname : string) (p0 : png_struct) : png_struct :=
  if writable E fname then
    let p1 := png_with_level 1 (png_with_io fname png_fresh) in
    if png_fault E call_set_IHDR then p1 else
    if png_fault E call_write_info then png_with_IHDR (gray_IHDR pix) p1 else
    let k := rows_ok E 0 (Z.to_nat (h pix)) in
    let p := png_with_rows (take k (scan pix buf).*2) (png_headed (gray_IHDR pix) fname) in
    if decide (k = Z.to_nat (h pix)) then
      if png_fault E call_write_end then p else png_with_end p
    else p
  else p0.

(** A world whose input document already carries the output's name. *)
Definition clash_world : world :=
  mk_world {[ "in.png" := [Byte.x25; Byte.x50] ]} ∅ png_fresh 0 [].

(** A parser that finds one page in a two-byte file and two pages in any
    other non-empty file, and a world with one file of each kind. *)
Definition paged_services : services :=
  mk_services
    (fun bytes => match bytes with
                  | [] => None
                  | [_; _] => Some (mk_document [demo_page])
                  | _ => Some (mk_document [demo_page; letter_page])
                  end)
    (fun page ctm bbox pn current => [(1, Byte.x00)])
    (fun p => concat (rows_written p))
    (fun _ _ => "0.000").

Definition paged_world : world :=
  mk_world {[ "one.pdf" := [Byte.x25; Byte.x50]; "two.pdf" := [Byte.x25] ]}
           ∅ png_fresh 0 [].

(** * Properties *)

(** ** Memory *)

Lemma lookup_memset (m : gmap Z byte) (s len : Z) (v : byte) (k : Z) :
  memset m s v len !! k = if decide (s <= k < s + len) then Some v else m !! k.
Proof.
  unfold memset.
  destruct (Z.le_gt_cases len 0) as [Hle|Hgt].
  { rewrite (seqZ_nil s len Hle). simpl. case_decide; [lia|done]. }
  rewrite <- (Z2Nat.id len) by lia.
  generalize (Z.to_nat len) as c. clear. intros c. revert s.
  induction c as [|c IH]; intros s.
  - simpl. case_decide; [lia|done].
  - rewrite Nat2Z.inj_succ, seqZ_cons by lia. simpl.
    replace (Z.pred (Z.succ (Z.of_nat c))) with (Z.of_nat c) by lia.
    rewrite lookup_insert. case_decide as Heq.
    + subst. case_decide; [done|lia].
    + rewrite IH. repeat case_decide; try done; lia.
Qed.

Lemma mem_read_Some (m : gmap Z byte) (s len : Z) (bytes : list byte) :
  mem_read m s len = Some bytes <->
  length bytes = Z.to_nat len /\
  forall i, 0 <= i < len -> m !! (s + i) = bytes !! Z.to_nat i.
Proof.
  unfold mem_read. rewrite mapM_Some. split.
  - intros HF. pose proof (Forall2_length _ _ _ HF) as Hlen.
    rewrite length_seqZ in Hlen. split; [done|].
    intros i Hi.
    assert (Hs : seqZ s len !! Z.to_nat i = Some (s + i)).
    { rewrite lookup_seqZ. split; lia. }
    destruct (Forall2_lookup_l _ _ _ _ _ HF Hs) as (b & Hb & Hm).
    by rewrite Hm, Hb.
  - intros [Hlen Hrd]. apply Forall2_same_length_lookup_2.
    + by rewrite length_seqZ.
    + intros i a b Ha Hb. apply lookup_seqZ in Ha as [-> Hi].
      rewrite Hrd by lia. by rewrite Nat2Z.id.
Qed.

Lemma mem_read_sub (m : gmap Z byte) (s : Z) (buf : list byte) (off len : Z) :
  holds m s buf -> 0 <= off -> 0 <= len -> off + len <= Z.of_nat (length buf) ->
  mem_read m (s + off) len = Some (row_of buf off len).
Proof.
  unfold holds. intros [_ Hrd]%mem_read_Some Hoff Hlen Hfit.
  apply mem_read_Some. unfold row_of. split.
  - rewrite length_take, length_drop. lia.
  - intros i Hi. rewrite lookup_take_lt by lia. rewrite lookup_drop.
    replace (s + off + i) with (s + (off + i)) by lia.
    rewrite Hrd by lia. f_equal. lia.
Qed.

Lemma memset_holds (m : gmap Z byte) (s len : Z) (v : byte) :
  holds (memset m s v len) s (replicate (Z.to_nat len) v).
Proof.
  unfold holds. apply mem_read_Some. rewrite length_replicate. split; [lia|].
  intros i Hi. rewrite lookup_memset. rewrite decide_True by lia.
  symmetry. apply lookup_replicate_2. lia.
Qed.

Lemma blend_in_length (size : Z) (writes : list (Z * byte)) (buf : list byte) :
  length (blend_in size writes buf) = length buf.
Proof.
  unfold blend_in. revert buf.
  induction writes as [|[off v] ws IH]; intros buf; simpl; [done|].
  rewrite IH. case_bool_decide; [apply length_insert|done].
Qed.

Lemma blend_length (writes : list (Z * byte)) (buf : list byte) :
  length (blend writes buf) = length buf.
Proof. apply blend_in_length. Qed.

Lemma store_clipped_holds (pix : fz_pixmap) (writes : list (Z * byte))
    (m : gmap Z byte) (buf : list byte) :
  Z.of_nat (length buf) = stride pix * h pix ->
  holds m (samples pix) buf ->
  holds (store_clipped pix writes m) (samples pix) (blend writes buf).
Proof.
  intros Hsz. unfold store_clipped, blend, blend_in. rewrite Hsz.
  assert (Hsz' : Z.of_nat (length buf) <= stride pix * h pix) by lia.
  clear Hsz. revert m buf Hsz'.
  induction writes as [|[off v] ws IH]; intros m buf Hsz Hh; simpl; [done|].
  case_bool_decide as Hin; [|by apply IH].
  destruct (decide (off < Z.of_nat (length buf))) as [Hlt|Hge].
  2:{ rewrite list_insert_ge by lia. apply IH; [done|].
      unfold holds in *. apply mem_read_Some in Hh as [_ Hrd].
      apply mem_read_Some. split; [lia|]. intros i Hi.
      rewrite lookup_insert_ne by lia. by apply Hrd. }
  apply IH; [by rewrite length_insert|].
  unfold holds in *. apply mem_read_Some in Hh as [_ Hrd].
  apply mem_read_Some. rewrite length_insert. split; [lia|].
  intros i Hi. destruct (decide (i = off)) as [->|Hne].
  - rewrite lookup_insert_eq. symmetry. apply list_lookup_insert_eq. lia.
  - rewrite lookup_insert_ne by lia. rewrite list_lookup_insert_ne by lia. by apply Hrd.
Qed.

(** ** The row-pointer table *)

Lemma rows_loop_eq (c : nat) (pix : fz_pixmap) (row : Z) (rows : list Z) :
  row + Z.of_nat c <= h pix ->
  rows_loop c pix row rows =
  rows ++ ((fun r => samples pix + row_offset pix r) <$> seqZ row (Z.of_nat c)).
Proof.
  revert row rows. induction c as [|c IH]; intros row rows Hle.
  - simpl. by rewrite app_nil_r.
  - simpl. rewrite (proj2 (Z.ltb_lt row (h pix))) by lia.
    rewrite IH by lia. rewrite <- app_assoc. f_equal.
    rewrite (seqZ_cons row) by lia. simpl. unfold Z.succ.
    replace (Z.pred (Z.of_nat (S c))) with (Z.of_nat c) by lia. done.
Qed.

Lemma build_rows_eq (pix : fz_pixmap) :
  build_rows pix = (fun r => samples pix + row_offset pix r) <$> seqZ 0 (h pix).
Proof.
  unfold build_rows. destruct (Z.le_gt_cases (h pix) 0) as [Hle|Hgt].
  - rewrite (seqZ_nil 0 (h pix)) by lia.
    replace (Z.to_nat (h pix)) with O by lia. done.
  - rewrite rows_loop_eq by lia. rewrite Z2Nat.id by lia. done.
Qed.

Lemma build_rows_scan (pix : fz_pixmap) (buf : list byte) :
  build_rows pix = (scan pix buf).*1.
Proof.
  rewrite build_rows_eq. unfold scan. rewrite <- list_fmap_compose. done.
Qed.

Lemma scan_length (pix : fz_pixmap) (buf : list byte) :
  length (scan pix buf) = Z.to_nat (h pix).
Proof. unfold scan. by rewrite length_fmap, length_seqZ. Qed.

Lemma row_offset_bounds (pix : fz_pixmap) (row : Z) :
  0 <= row -> 0 <= stride pix ->
  0 <= row_offset pix row <= row * stride pix.
Proof.
  intros Hr Hs. unfold row_offset, size_t.
  assert (0 <= row * stride pix) by lia.
  split; [apply Z.mod_pos_bound; done|apply Z.mod_le; done].
Qed.

Lemma row_offset_exact (pix : fz_pixmap) (row : Z) :
  0 <= row < h pix -> 0 <= stride pix -> stride pix * h pix < 2 ^ SIZE_WIDTH ->
  row_offset pix row = row * stride pix.
Proof.
  intros Hr Hs Hfit. unfold row_offset, size_t. apply Z.mod_small. nia.
Qed.

(** Every row of the table can be read when the buffer is initialised. *)
Lemma scan_readable (pix : fz_pixmap) (m : gmap Z byte) (buf : list byte) :
  0 <= w pix <= stride pix ->
  Z.of_nat (length buf) = stride pix * h pix ->
  holds m (samples pix) buf ->
  Forall (fun r => mem_read m r.1 (w pix) = Some r.2) (scan pix buf).
Proof.
  intros Hw Hsz Hh. unfold scan. apply Forall_fmap, Forall_forall.
  intros row [Hr0 Hr1]%elem_of_seqZ. simpl.
  pose proof (row_offset_bounds pix row) as Hb.
  apply mem_read_sub; [done|lia|lia|nia].
Qed.

(** ** Writing the rows *)

Lemma png_flushed_png (L : services) (wd : world) : png (png_flushed L wd) = png wd.
Proof. unfold png_flushed. by destruct (io_ptr (png wd)). Qed.

Lemma png_flushed_mem (L : services) (wd : world) : mem (png_flushed L wd) = mem wd.
Proof. unfold png_flushed. by destruct (io_ptr (png wd)). Qed.

Lemma png_flushed_trace (L : services) (wd : world) : trace (png_flushed L wd) = trace wd.
Proof. unfold png_flushed. by destruct (io_ptr (png wd)). Qed.

Lemma png_flushed_ticks (L : services) (wd : world) : ticks (png_flushed L wd) = ticks wd.
Proof. unfold png_flushed. by destruct (io_ptr (png wd)). Qed.

Lemma png_flushed_fs (L : services) (wd : world) (fp : string) :
  io_ptr (png wd) = Some fp ->
  fs (png_flushed L wd) = <[fp := png_bytes L (png wd)]> (fs wd).
Proof. unfold png_flushed. by intros ->. Qed.

Section Rows.

Context (L : services).

Lemma rows_step_png (rows : list (Z * list byte)) (wd : world) :
  png (foldl (row_step L) wd rows) = png_with_rows rows.*2 (png wd).
Proof.
  revert wd. induction rows as [|r rows IH]; intros wd; simpl.
  - unfold png_with_rows. rewrite app_nil_r. by destruct (png wd).
  - rewrite IH. unfold row_step. rewrite png_flushed_png. simpl.
    unfold png_with_rows, png_with_row. simpl. by rewrite <- app_assoc.
Qed.

Lemma rows_step_mem (rows : list (Z * list byte)) (wd : world) :
  mem (foldl (row_step L) wd rows) = mem wd.
Proof.
  revert wd. induction rows as [|r rows IH]; intros wd; simpl; [done|].
  rewrite IH. unfold row_step. by rewrite png_flushed_mem.
Qed.

Lemma rows_step_ticks (rows : list (Z * list byte)) (wd : world) :
  ticks (foldl (row_step L) wd rows) = ticks wd.
Proof.
  revert wd. induction rows as [|r rows IH]; intros wd; simpl; [done|].
  rewrite IH. unfold row_step. by rewrite png_flushed_ticks.
Qed.

Lemma rows_step_trace (rows : list (Z * list byte)) (wd : world) :
  trace (foldl (row_step L) wd rows) =
  trace wd ++ ((fun r => ev_png_write_row r.1 r.2) <$> rows).
Proof.
  revert wd. induction rows as [|r rows IH]; intros wd; simpl.
  - by rewrite app_nil_r.
  - rewrite IH. unfold row_step. rewrite png_flushed_trace. simpl.
    by rewrite <- app_assoc.
Qed.

Lemma rows_step_fs (rows : list (Z * list byte)) (wd : world) (fp : string) :
  io_ptr (png wd) = Some fp ->
  fs (foldl (row_step L) wd rows) =
  match rows with
  | [] => fs wd
  | _ => <[fp := png_bytes L (png_with_rows rows.*2 (png wd))]> (fs wd)
  end.
Proof.
  revert wd. induction rows as [|r rows IH]; intros wd Hio; [done|].
  simpl foldl. rewrite IH.
  2:{ unfold row_step. by rewrite png_flushed_png. }
  assert (Hfs : fs (row_step L wd r) = <[fp := png_bytes L (png_with_row r.2 (png wd))]> (fs wd)).
  { unfold row_step. by rewrite (png_flushed_fs _ _ fp). }
  assert (Hpng : png (row_step L wd r) = png_with_row r.2 (png wd)).
  { unfold row_step. by rewrite png_flushed_png. }
  destruct rows as [|r' rows].
  - rewrite Hfs. simpl. done.
  - rewrite Hfs, Hpng. rewrite insert_insert_eq. do 2 f_equal.
    unfold png_with_rows, png_with_row. simpl. by rewrite <- app_assoc.
Qed.

Context (E : environment).

Lemma rows_ok_le (i count : nat) : (rows_ok E i count <= count)%nat.
Proof.
  revert i. induction count as [|c IH]; intros i; simpl; [done|].
  destruct (png_fault E (call_write_row i)); [lia|]. specialize (IH (S i)). lia.
Qed.

Lemma rows_ok_no_fault (i count : nat) : no_png_fault E -> rows_ok E i count = count.
Proof.
  intros Hno. revert i. induction count as [|c IH]; intros i; simpl; [done|].
  by rewrite Hno, IH.
Qed.

(** The loop of [png_write_image]: it writes the rows up to libpng's first
    fault, and never reads past the table or outside defined memory when
    the rows it is given can be read. *)
Lemma png_write_rows_spec (image : list Z) (hdr : png_IHDR) (count : nat) :
  forall (i : nat) (wd : world) (data : list (Z * list byte)),
    IHDR (png wd) = Some hdr ->
    length data = count ->
    (forall j r, data !! j = Some r ->
       image !! (i + j)%nat = Some r.1 /\
       mem_read (mem wd) r.1 (png_rowbytes hdr) = Some r.2) ->
    png_write_rows L E image i count wd =
    (if decide (rows_ok E i count = count) then Ok tt else PngError,
     foldl (row_step L) wd (take (rows_ok E i count) data)).
Proof.
  induction count as [|c IH]; intros i wd data Hhdr Hlen Hdata.
  - simpl. done.
  - destruct data as [|r data]; [done|]. simpl in Hlen.
    destruct (Hdata O r eq_refl) as [Himg Hread].
    rewrite Nat.add_0_r in Himg.
    simpl. rewrite Himg. unfold bind at 1. unfold png_write_row, bind at 1.
    unfold png_may_fail. destruct (png_fault E (call_write_row i)) eqn:Hf.
    + simpl. done.
    + simpl. rewrite Hhdr, Hread. simpl.
      change (png_flushed L _) with (row_step L wd r).
      rewrite (IH (S i) (row_step L wd r) data).
      * case_decide as H1; case_decide as H2; try done; lia.
      * unfold row_step. rewrite png_flushed_png. simpl. done.
      * lia.
      * intros j r' Hj. destruct (Hdata (S j) r' Hj) as [H1 H2].
        split; [by rewrite <- Nat.add_succ_comm in H1|].
        unfold row_step. by rewrite png_flushed_mem.
Qed.

End Rows.

(** ** The encoder *)

Section Encoder.

Context (L : services) (E : environment).

Lemma png_write_image_pix (pix : fz_pixmap) (buf : list byte) (wd : world) :
  IHDR (png wd) = Some (gray_IHDR pix) ->
  0 <= w pix <= stride pix ->
  Z.of_nat (length buf) = stride pix * h pix ->
  holds (mem wd) (samples pix) buf ->
  png_write_image L E (build_rows pix) wd =
  (if decide (rows_ok E 0 (Z.to_nat (h pix)) = Z.to_nat (h pix)) then Ok tt else PngError,
   foldl (row_step L) wd (take (rows_ok E 0 (Z.to_nat (h pix))) (scan pix buf))).
Proof.
  intros Hhdr Hw Hsz Hh. unfold png_write_image. rewrite Hhdr.
  change (height (gray_IHDR pix)) with (h pix).
  apply png_write_rows_spec with (hdr := gray_IHDR pix); [done|apply scan_length|].
  intros j r Hj. simpl. split.
  - rewrite (build_rows_scan pix buf), list_lookup_fmap, Hj. done.
  - change (png_rowbytes (gray_IHDR pix)) with (w pix * 1). rewrite Z.mul_1_r.
    pose proof (scan_readable pix (mem wd) buf Hw Hsz Hh) as HF.
    rewrite Forall_lookup in HF. by apply (HF j).
Qed.

Lemma encoded_result_eq (pix : fz_pixmap) (buf : list byte) (fname : string) (wd : world) :
  (encoded L E pix buf fname wd).1 = encoded_result E (h pix) fname.
Proof.
  unfold encoded, encoded_result.
  destruct (writable E fname); [|done].
  destruct (png_fault E call_set_IHDR); [done|].
  destruct (png_fault E call_write_info); [done|]. cbn zeta.
  case_decide; [|done].
  by destruct (png_fault E call_write_end).
Qed.

Lemma encoded_fs_eq (pix : fz_pixmap) (buf : list byte) (fname : string) (wd : world) :
  fs (encoded L E pix buf fname wd).2 =
  encoded_fs L E (gray_IHDR pix) (scan pix buf).*2 fname (fs wd).
Proof.
  unfold encoded, encoded_fs.
  destruct (writable E fname); [|done].
  destruct (png_fault E call_set_IHDR); [done|].
  destruct (png_fault E call_write_info); [done|]. cbn zeta.
  change (height (gray_IHDR pix)) with (h pix).
  set (k := rows_ok E 0 (Z.to_nat (h pix))).
  set (wd3 := png_flushed L _).
  assert (Hio : io_ptr (png wd3) = Some fname) by done.
  assert (Hpng : png wd3 = png_headed (gray_IHDR pix) fname) by done.
  assert (Hfs3 : fs wd3 = <[fname := png_bytes L (png_headed (gray_IHDR pix) fname)]>
                            (<[fname := []]> (fs wd))) by done.
  pose proof (rows_step_fs L (take k (scan pix buf)) wd3 fname Hio) as Hfs.
  pose proof (rows_step_png L (take k (scan pix buf)) wd3) as Hp.
  rewrite <- !fmap_take.
  rewrite Hpng in Hp. rewrite Hpng, Hfs3 in Hfs.
  assert (Hfs' : fs (foldl (row_step L) wd3 (take k (scan pix buf))) =
                 <[fname := png_bytes L (png_with_rows (take k (scan pix buf)).*2
                                           (png_headed (gray_IHDR pix) fname))]> (fs wd)).
  { rewrite Hfs. destruct (take k (scan pix buf)) as [|r rs] eqn:Ht.
    - simpl. by rewrite insert_insert_eq.
    - by rewrite !insert_insert_eq. }
  assert (Hio4 : io_ptr (png (foldl (row_step L) wd3 (take k (scan pix buf)))) = Some fname).
  { by rewrite Hp. }
  case_decide.
  - destruct (png_fault E call_write_end).
    + simpl fs. exact Hfs'.
    + simpl snd. simpl fs. rewrite (png_flushed_fs _ _ fname) by (simpl; by rewrite Hp).
      simpl. rewrite Hp, Hfs'. by rewrite insert_insert_eq.
  - simpl fs. exact Hfs'.
Qed.

Lemma encoded_success (pix : fz_pixmap) (buf : list byte) (fname : string) (wd : world) :
  writable E fname = true -> no_png_fault E ->
  exists wd',
    encoded L E pix buf fname wd = (Ok tt, wd') /\
    png wd' = png_complete pix buf fname /\
    trace wd' = trace wd ++ encoder_events pix buf fname /\
    fs wd' = <[fname := png_bytes L (png_complete pix buf fname)]> (fs wd) /\
    mem wd' = mem wd /\ ticks wd' = ticks wd.
Proof.
  intros Hwr Hno.
  pose proof (encoded_fs_eq pix buf fname wd) as Hfs. revert Hfs.
  unfold encoded, encoded_fs. rewrite Hwr, !Hno. cbn zeta.
  change (height (gray_IHDR pix)) with (h pix).
  rewrite !rows_ok_no_fault by done. rewrite !decide_True by done.
  rewrite (take_ge (scan pix buf)) by (rewrite scan_length; lia).
  rewrite (take_ge (scan pix buf).*2) by (rewrite length_fmap, scan_length; lia).
  intros Hfs. eexists. split; [reflexivity|].
  split; [|split; [|split; [exact Hfs|split]]].
  - simpl snd. simpl png. rewrite png_flushed_png. simpl. rewrite rows_step_png. done.
  - simpl. rewrite png_flushed_trace. simpl. rewrite rows_step_trace. simpl.
    unfold encoder_events, row_events. rewrite <- !app_assoc. done.
  - simpl. rewrite png_flushed_mem. simpl. by rewrite rows_step_mem.
  - simpl. rewrite png_flushed_ticks. simpl. by rewrite rows_step_ticks.
Qed.

Lemma encoded_trace_eq (pix : fz_pixmap) (buf : list byte) (fname : string) (wd : world) :
  trace (encoded L E pix buf fname wd).2 = trace wd ++ encoder_trace E pix buf fname.
Proof.
  unfold encoded, encoder_trace.
  destruct (writable E fname); [|simpl; by rewrite <- app_assoc].
  destruct (png_fault E call_set_IHDR); [simpl; by rewrite <- !app_assoc|].
  destruct (png_fault E call_write_info); [simpl; by rewrite <- !app_assoc|]. cbn zeta.
  set (k := rows_ok E 0 (Z.to_nat (h pix))).
  set (wd3 := png_flushed L _).
  assert (Htr3 : trace wd3 = trace wd ++ [ev_fopen fname "wb"; ev_png_set_compression_level 1;
                   ev_png_set_IHDR (gray_IHDR pix); ev_png_write_info]).
  { unfold wd3. rewrite png_flushed_trace. simpl. by rewrite <- !app_assoc. }
  pose proof (rows_step_trace L (take k (scan pix buf)) wd3) as Htr. rewrite Htr3 in Htr.
  case_decide.
  - destruct (png_fault E call_write_end).
    + simpl. rewrite Htr. unfold row_events. rewrite <- !app_assoc. done.
    + simpl. rewrite png_flushed_trace. simpl. rewrite Htr. unfold row_events.
      rewrite <- !app_assoc. done.
  - simpl. rewrite Htr. unfold row_events. rewrite <- !app_assoc. done.
Qed.

Lemma write_png_fast_spec (pix : fz_pixmap) (buf : list byte) (fname : string) (wd : world) :
  0 <= w pix <= stride pix ->
  Z.of_nat (length buf) = stride pix * h pix ->
  holds (mem wd) (samples pix) buf ->
  write_png_fast L E pix fname wd = encoded L E pix buf fname wd.
Proof.
  intros Hw Hsz Hh. unfold write_png_fast, encoded.
  unfold fopen, bind at 1. unfold bind at 1. simpl.
  destruct (writable E fname) eqn:Hwr; simpl.
  2:{ done. }
  unfold setjmp. unfold png_set_IHDR, png_may_fail.
  destruct (png_fault E call_set_IHDR) eqn:F1; simpl.
  { done. }
  unfold png_write_info, png_may_fail.
  destruct (png_fault E call_write_info) eqn:F2; simpl.
  { done. }
  unfold png_create_write_struct, png_create_info_struct, png_init_io,
    png_set_compression_level, png_write_end, png_destroy_write_struct, fclose, free,
    png_flush, log, modify, ret, bind, exit, png_may_fail, png_error.
  cbn beta iota zeta.
  lazymatch goal with
  | |- context [png_write_image L E ?img ?W] =>
      rewrite (png_write_image_pix pix buf W eq_refl Hw Hsz Hh)
  end.
  case_decide as Hk.
  - destruct (png_fault E call_write_end); reflexivity.
  - reflexivity.
Qed.

End Encoder.

(** ** Geometry *)

Lemma Qmin4_le_Qmax4 (p q r s : Q) : (Qmin4 p q r s <= Qmax4 p q r s)%Q.
Proof.
  unfold Qmin4, Qmax4.
  eapply Qle_trans; [apply Q.le_min_l|].
  eapply Qle_trans; [apply Q.le_min_l|].
  eapply Qle_trans; [apply (Q.le_max_l p q)|]. apply Q.le_max_l.
Qed.

Lemma Qfloor_le_Qceiling (p q : Q) : (p <= q)%Q -> Qfloor p <= Qceiling q.
Proof.
  intros Hle. etrans; [apply Qfloor_resp_le, Hle|]. rewrite Zle_Qle. apply Qle_floor_ceiling.
Qed.

Lemma page_bbox_ordered (page : fz_page) :
  ix0 (page_bbox page) <= ix1 (page_bbox page) /\
  iy0 (page_bbox page) <= iy1 (page_bbox page).
Proof.
  unfold page_bbox, fz_round_rect, fz_transform_rect. simpl.
  split; apply Qfloor_le_Qceiling, Qmin4_le_Qmax4.
Qed.

Lemma page_pixmap_shape (E : environment) (page : fz_page) :
  let pix := page_pixmap E page in
  0 <= w pix <= stride pix /\ 0 <= h pix /\ 0 <= buffer_size pix.
Proof.
  pose proof (page_bbox_ordered page) as [Hx Hy].
  unfold buffer_size, page_pixmap. cbn zeta. revert Hx Hy.
  generalize (page_bbox page). intros [a b c d]. simpl. intros. nia.
Qed.

Lemma Qmin4_eq (p q r s m : Q) :
  (m <= q)%Q -> (m <= r)%Q -> (m <= s)%Q -> (p == m)%Q ->
  (Qmin4 p q r s == m)%Q.
Proof.
  intros Hq Hr Hs Hp. unfold Qmin4. apply Qle_antisym.
  - eapply Qle_trans; [apply Q.le_min_l|].
    eapply Qle_trans; [apply Q.le_min_l|]. rewrite Hp. apply Qle_refl.
  - apply Q.min_glb; apply Q.min_glb; try done. rewrite Hp. apply Qle_refl.
Qed.

Lemma Qmax4_eq (p q r s m : Q) :
  (p <= m)%Q -> (q <= m)%Q -> (s <= m)%Q -> (r == m)%Q ->
  (Qmax4 p q r s == m)%Q.
Proof.
  intros Hp Hq Hs Hr. unfold Qmax4. apply Qle_antisym.
  - apply Q.max_lub; apply Q.max_lub; try done. rewrite Hr. apply Qle_refl.
  - eapply Qle_trans; [|apply Q.le_max_r].
    eapply Qle_trans; [|apply Q.le_max_l]. rewrite Hr. apply Qle_refl.
Qed.

(** Zooming a well-formed box multiplies its four coordinates by 4. *)
Lemma zoom_rect (r : fz_rect) :
  valid_rect r ->
  let r' := fz_transform_rect r zoom in
  (x0 r' == 4 * x0 r)%Q /\ (y0 r' == 4 * y0 r)%Q /\
  (x1 r' == 4 * x1 r)%Q /\ (y1 r' == 4 * y1 r)%Q.
Proof.
  intros [Hx Hy]. destruct r as [a b c d]. simpl in *.
  assert (H4 : (0 <= 4)%Q) by done.
  pose proof (Qmult_le_compat_r _ _ 4 Hx H4) as Hx4.
  pose proof (Qmult_le_compat_r _ _ 4 Hy H4) as Hy4.
  repeat split.
  - apply Qmin4_eq; try ring_simplify; try apply Qle_refl; try ring.
    all: rewrite (Qmult_comm 4 a), (Qmult_comm 4 c); done.
  - apply Qmin4_eq; try ring_simplify; try apply Qle_refl; try ring.
    all: rewrite (Qmult_comm 4 b), (Qmult_comm 4 d); done.
  - apply Qmax4_eq; try ring_simplify; try apply Qle_refl; try ring.
    all: rewrite (Qmult_comm 4 a), (Qmult_comm 4 c); done.
  - apply Qmax4_eq; try ring_simplify; try apply Qle_refl; try ring.
    all: rewrite (Qmult_comm 4 b), (Qmult_comm 4 d); done.
Qed.

(** ** Stepping through a program *)

Lemma bind_run {A B : Type} (m : M A) (k : A -> M B) (wd : world) (v : A) (wd' : world) :
  m wd = (Ok v, wd') -> bind m k wd = k v wd'.
Proof. unfold bind. by intros ->. Qed.

Lemma canvas_read (m : gmap Z byte) (pix : fz_pixmap) :
  0 <= buffer_size pix ->
  mem_read (memset m (samples pix) (byte_of_int 255) (buffer_size pix))
           (samples pix) (buffer_size pix) = Some (canvas pix).
Proof.
  intros Hsz. pose proof (memset_holds m (samples pix) (buffer_size pix) (byte_of_int 255)) as Hh.
  unfold holds in Hh. rewrite length_replicate, Z2Nat.id in Hh by done. exact Hh.
Qed.

Lemma canvas_length (pix : fz_pixmap) :
  0 <= buffer_size pix -> Z.of_nat (length (canvas pix)) = buffer_size pix.
Proof. intros Hsz. unfold canvas. rewrite length_replicate. lia. Qed.

Lemma drawn_length (L : services) (page : fz_page) (pix : fz_pixmap) :
  0 <= buffer_size pix -> Z.of_nat (length (drawn L page pix)) = buffer_size pix.
Proof. intros Hsz. unfold drawn. rewrite blend_length. by apply canvas_length. Qed.

(** ** The four ways through [main] *)

Section Main.

Context (L : services) (E : environment).

Lemma run_usage (argv : list string) (wd : world) :
  length argv <> 3%nat ->
  run L E argv wd = (Exited 1, emit (ev_stderr (usage (nth 0 argv "(null)"))) wd).
Proof.
  intros Hargc. unfold run, main.
  destruct (Z.of_nat (length argv) =? 3) eqn:Heq; [lia|]. reflexivity.
Qed.

Lemma run_open_fails (prog inp prefix : string) (wd : world) :
  document_at L E wd inp = None ->
  run L E [prog; inp; prefix] wd =
  (FzUncaught DocumentOpenError, emit (ev_fz_open_document inp) (tick wd)).
Proof.
  unfold document_at, run, main. simpl.
  unfold clock_gettime, fz_new_context, fz_register_document_handlers,
    fz_open_document, log, modify, ret, bind, fz_throw.
  cbn beta iota zeta. simpl fs.
  destruct (if readable E inp then fs wd !! inp else None) as [bytes|]; [|done].
  by intros ->.
Qed.

Lemma run_load_fails (prog inp prefix : string) (wd : world) (doc : fz_document) :
  document_at L E wd inp = Some doc ->
  first_page doc = None ->
  run L E [prog; inp; prefix] wd =
  (FzUncaught PageLoadError,
   emit (ev_fz_load_page 0) (emit (ev_fz_open_document inp) (tick wd))).
Proof.
  unfold document_at, first_page, run, main. simpl.
  unfold clock_gettime, fz_new_context, fz_register_document_handlers,
    fz_open_document, fz_load_page, log, modify, ret, bind, fz_throw.
  cbn beta iota zeta. simpl fs.
  destruct (if readable E inp then fs wd !! inp else None) as [bytes|]; [|done].
  intros -> Hp. cbn beta iota. change (Z.to_nat 0) with O.
  change (0 <=? 0) with true. cbn iota. by rewrite Hp.
Qed.

Lemma rendered_holds (inp : string) (page : fz_page) (wd : world) :
  holds (mem (rendered L E inp page wd)) (samples (page_pixmap E page))
        (drawn L page (page_pixmap E page)).
Proof.
  destruct (page_pixmap_shape E page) as (Hw & Hh & Hsz).
  unfold rendered. cbn zeta. simpl mem. unfold drawn.
  apply store_clipped_holds.
  - by rewrite canvas_length.
  - unfold holds. rewrite canvas_length by done. by apply (canvas_read _ (page_pixmap E page)).
Qed.

(** The buffer [main] hands to the encoder is one the encoder can read,
    as soon as it fits the address space. *)
Lemma rendered_encodable (inp : string) (page : fz_page) (wd : world) :
  buffer_size (page_pixmap E page) < 2 ^ SIZE_WIDTH ->
  encodable (page_pixmap E page) (drawn L page (page_pixmap E page))
            (mem (rendered L E inp page wd)).
Proof.
  intros Hfit. destruct (page_pixmap_shape E page) as (Hw & Hh & Hsz).
  split; [done|]. split; [by apply drawn_length|]. split; [done|]. apply rendered_holds.
Qed.

Lemma run_renders (prog inp prefix : string) (wd : world) (doc : fz_document) (page : fz_page) :
  document_at L E wd inp = Some doc ->
  first_page doc = Some page ->
  run L E [prog; inp; prefix] wd =
  finished L E prefix (clock E (ticks wd))
    (encoded L E (page_pixmap E page) (drawn L page (page_pixmap E page))
             (out_name prefix) (rendered L E inp page wd)).
Proof.
  intros Hdoc Hpage. destruct (page_pixmap_shape E page) as (Hw & Hh & Hsz).
  unfold run, main.
  change (negb (Z.of_nat (length [prog; inp; prefix]) =? 3)) with false. cbn iota.
  rewrite (bind_run (clock_gettime E) _ wd (clock E (ticks wd)) (tick wd) eq_refl).
  rewrite (bind_run fz_new_context _ _ tt (tick wd) eq_refl).
  rewrite (bind_run fz_register_document_handlers _ _ tt (tick wd) eq_refl).
  change (nth 1 [prog; inp; prefix] "") with inp.
  change (nth 2 [prog; inp; prefix] "") with prefix.
  rewrite (bind_run (fz_open_document L E inp) _ _ doc (emit (ev_fz_open_document inp) (tick wd))).
  2:{ revert Hdoc. unfold document_at, fz_open_document, bind, log, modify, ret, fz_throw.
      cbn beta iota. simpl fs.
      destruct (if readable E inp then fs wd !! inp else None); [|done]. by intros ->. }
  rewrite (bind_run (fz_load_page doc 0) _ _ page
             (emit (ev_fz_load_page 0) (emit (ev_fz_open_document inp) (tick wd)))).
  2:{ revert Hpage. unfold first_page, fz_load_page, bind, log, modify, ret.
      change (Z.to_nat 0) with O. change (0 <=? 0) with true. cbn beta iota. by intros ->. }
  cbn zeta.
  set (pix := page_pixmap E page).
  set (wdB := emit (ev_fz_load_page 0) (emit (ev_fz_open_document inp) (tick wd))).
  set (wdC := set_mem (fun m => mem_undef m (samples pix) (buffer_size pix))
                (emit (ev_fz_new_pixmap (page_bbox page) 1) wdB)).
  rewrite (bind_run (fz_new_pixmap_with_bbox E fz_device_gray _ 1) _ wdB pix wdC eq_refl).
  set (wdD := set_mem (fun m => memset m (samples pix) (byte_of_int 255) (buffer_size pix))
                (emit (ev_fz_clear_pixmap 255) wdC)).
  rewrite (bind_run (fz_clear_pixmap_with_value pix 255) _ wdC tt wdD eq_refl).
  rewrite (bind_run (fz_new_draw_device (fz_scale 4 4) pix) _ wdD (mk_device zoom pix)
             (emit (ev_fz_new_draw_device zoom) wdD) eq_refl).
  rewrite (bind_run (fz_run_page L page (mk_device zoom pix) (fz_scale 4 4)) _ _ tt
             (rendered L E inp page wd)).
  2:{ unfold fz_run_page, bind, log, modify, ret. cbn beta iota zeta.
      cbn [dest]. change (mem (emit _ (emit _ wdD))) with
        (memset (mem wdC) (samples pix) (byte_of_int 255) (buffer_size pix)).
      change (stride pix * h pix) with (buffer_size pix).
      rewrite (canvas_read _ pix Hsz). reflexivity. }
  rewrite (bind_run (fz_close_device (mk_device zoom pix)) _ _ tt _ eq_refl).
  unfold bind at 1.
  rewrite (write_png_fast_spec L E pix (drawn L page pix) _ _ Hw
             (drawn_length L page pix Hsz) (rendered_holds inp page wd)).
  change (snprintf 256 (prefix +:+ ".png")) with (out_name prefix).
  destruct (encoded L E pix (drawn L page pix) (out_name prefix) (rendered L E inp page wd))
    as [[[]| |o] wd']; reflexivity.
Qed.

Lemma finished_outcome (prefix : string) (t0 : timespec) (r : result unit * world) :
  (finished L E prefix t0 r).1 = outcome_of r.1.
Proof. by destruct r as [[[]| |o] wd']. Qed.

Lemma finished_fs (prefix : string) (t0 : timespec) (r : result unit * world) :
  fs (finished L E prefix t0 r).2 = fs r.2.
Proof. by destruct r as [[[]| |o] wd']. Qed.


Lemma finished_trace (prefix : string) (t0 : timespec) (r : result unit * world) :
  exists tail, trace (finished L E prefix t0 r).2 = trace r.2 ++ tail /\
               Forall is_stdout tail.
Proof.
  destruct r as [[[]| |o] wd']; simpl.
  - eexists [_]. split; [done|]. repeat constructor. by eexists.
  - exists []. by rewrite app_nil_r.
  - exists []. by rewrite app_nil_r.
Qed.

Lemma rendered_trace (inp : string) (page : fz_page) (wd : world) :
  trace (rendered L E inp page wd) = trace wd ++ render_events E inp page.
Proof. unfold rendered, render_events. simpl. by rewrite <- !app_assoc. Qed.

Lemma rendered_fs (inp : string) (page : fz_page) (wd : world) :
  fs (rendered L E inp page wd) = fs wd.
Proof. done. Qed.

(** The render path in three projections: how it ends, what is on disk,
    what was logged. *)
Lemma run_renders_outcome (prog inp prefix : string) (wd : world)
    (doc : fz_document) (page : fz_page) :
  document_at L E wd inp = Some doc -> first_page doc = Some page ->
  (run L E [prog; inp; prefix] wd).1 =
  outcome_of (encoded_result E (h (page_pixmap E page)) (out_name prefix)).
Proof.
  intros Hdoc Hpage. rewrite (run_renders prog inp prefix wd doc page Hdoc Hpage).
  by rewrite finished_outcome, encoded_result_eq.
Qed.

Lemma run_renders_fs (prog inp prefix : string) (wd : world)
    (doc : fz_document) (page : fz_page) :
  document_at L E wd inp = Some doc -> first_page doc = Some page ->
  fs (run L E [prog; inp; prefix] wd).2 =
  encoded_fs L E (gray_IHDR (page_pixmap E page))
    (scan (page_pixmap E page) (drawn L page (page_pixmap E page))).*2
    (out_name prefix) (fs wd).
Proof.
  intros Hdoc Hpage. rewrite (run_renders prog inp prefix wd doc page Hdoc Hpage).
  by rewrite finished_fs, encoded_fs_eq.
Qed.

Lemma run_renders_trace (prog inp prefix : string) (wd : world)
    (doc : fz_document) (page : fz_page) :
  document_at L E wd inp = Some doc -> first_page doc = Some page ->
  exists tail,
    trace (run L E [prog; inp; prefix] wd).2 =
      trace wd ++ render_events E inp page
        ++ encoder_trace E (page_pixmap E page) (drawn L page (page_pixmap E page))
             (out_name prefix)
        ++ tail /\
    Forall is_stdout tail.
Proof.
  intros Hdoc Hpage. rewrite (run_renders prog inp prefix wd doc page Hdoc Hpage).
  destruct (finished_trace prefix (clock E (ticks wd))
              (encoded L E (page_pixmap E page) (drawn L page (page_pixmap E page))
                 (out_name prefix) (rendered L E inp page wd))) as (tail & -> & Htail).
  exists tail. split; [|done].
  rewrite encoded_trace_eq, rendered_trace. by rewrite <- !app_assoc.
Qed.

Lemma finished_ok (prefix : string) (t0 : timespec) (wd' : world) :
  exists wd'',
    finished L E prefix t0 (Ok tt, wd') = (Exited 0, wd'') /\
    fs wd'' = fs wd' /\ png wd'' = png wd' /\ mem wd'' = mem wd' /\
    trace wd'' =
      trace wd' ++ [ev_stdout ("C yielded " +:+ out_name prefix +:+ " in "
        +:+ format_3f L (tv_sec (clock E (ticks wd')) - tv_sec t0)
                        (tv_nsec (clock E (ticks wd')) - tv_nsec t0)
        +:+ " s" +:+ newline)].
Proof. eexists. split; [reflexivity|]. done. Qed.

Lemma page_pixmap_size (page : fz_page) :
  valid_rect (mediabox page) ->
  w (page_pixmap E page) =
    Qceiling (4 * x1 (mediabox page)) - Qfloor (4 * x0 (mediabox page)) /\
  h (page_pixmap E page) =
    Qceiling (4 * y1 (mediabox page)) - Qfloor (4 * y0 (mediabox page)).
Proof.
  intros Hv. destruct (zoom_rect (mediabox page) Hv) as (Hx0 & Hy0 & Hx1 & Hy1).
  unfold page_pixmap, page_bbox, fz_round_rect, fz_bound_page. cbn [w h ix0 ix1 iy0 iy1].
  by rewrite Hx0, Hy0, Hx1, Hy1.
Qed.

End Main.

(** Membership in a list written out: one case per element. *)
Ltac split_elem H :=
  repeat first
    [ apply elem_of_nil in H; destruct H
    | apply elem_of_cons in H; destruct H as [H|H]
    | apply elem_of_app in H; destruct H as [H|H] ].

(** ** When the encoder fails *)

Lemma rows_ok_all (E : environment) (count i : nat) :
  rows_ok E i count = count <->
  forall k, (i <= k < i + count)%nat -> png_fault E (call_write_row k) = false.
Proof.
  revert i. induction count as [|c IH]; intros i; simpl.
  - split; [intros _ k; lia|done].
  - destruct (png_fault E (call_write_row i)) eqn:Hf.
    + split; [done|]. intros Hall. rewrite Hall in Hf by lia. done.
    + split.
      * intros [= Hc]. pose proof (proj1 (IH (S i)) Hc) as Hc'. intros k Hk.
        destruct (decide (k = i)) as [->|Hne]; [done|]. apply Hc'. lia.
      * intros Hall. f_equal. apply (proj2 (IH (S i))). intros k Hk. apply Hall. lia.
Qed.

Lemma encoded_result_ok (E : environment) (rows : Z) (fname : string) :
  writable E fname = true -> ~ png_fails E rows ->
  encoded_result E rows fname = Ok tt.
Proof.
  intros Hwr Hno. unfold png_fails in Hno. unfold encoded_result. rewrite Hwr.
  destruct (png_fault E call_set_IHDR); [tauto|].
  destruct (png_fault E call_write_info); [tauto|].
  destruct (png_fault E call_write_end); [tauto|].
  rewrite decide_True; [done|]. apply rows_ok_all. intros k Hk.
  destruct (png_fault E (call_write_row k)) eqn:Hf; [|done].
  exfalso. apply Hno. right. right. left. exists k. split; [lia|done].
Qed.

Lemma encoded_result_fail (E : environment) (rows : Z) (fname : string) :
  writable E fname = true -> png_fails E rows ->
  encoded_result E rows fname = Stop (Exited 3).
Proof.
  intros Hwr Hf. unfold encoded_result. rewrite Hwr.
  destruct (png_fault E call_set_IHDR) eqn:F1; [done|].
  destruct (png_fault E call_write_info) eqn:F2; [done|].
  case_decide as Hk; [|done].
  destruct (png_fault E call_write_end) eqn:F3; [done|].
  destruct Hf as [?|[?|[(k & Hlt & Hk')|?]]]; try congruence.
  pose proof (proj1 (rows_ok_all E (Z.to_nat rows) 0) Hk k) as Hk''.
  rewrite Hk'' in Hk' by lia. done.
Qed.

Lemma no_fault_no_failure (E : environment) (rows : Z) :
  no_png_fault E -> ~ png_fails E rows.
Proof.
  intros Hno [H|[H|[(k & _ & H)|H]]]; by rewrite Hno in H.
Qed.

Lemma encoded_fs_ok (L : services) (E : environment) (pix : fz_pixmap) (buf : list byte)
    (fname : string) (g : gmap string (list byte)) :
  writable E fname = true -> ~ png_fails E (h pix) ->
  encoded_fs L E (gray_IHDR pix) (scan pix buf).*2 fname g =
  <[fname := png_bytes L (png_complete pix buf fname)]> g.
Proof.
  intros Hwr Hno. pose proof (encoded_result_ok E (h pix) fname Hwr Hno) as Hres.
  revert Hres. unfold encoded_result, encoded_fs. rewrite Hwr.
  change (height (gray_IHDR pix)) with (h pix).
  destruct (png_fault E call_set_IHDR); [done|].
  destruct (png_fault E call_write_info); [done|]. cbn zeta.
  case_decide as Hk; [|done].
  destruct (png_fault E call_write_end); [done|]. intros _.
  rewrite Hk. rewrite take_ge by (rewrite length_fmap, scan_length; lia). done.
Qed.

(** ** What the trace and the buffer contain *)



Lemma scan_elem (pix : fz_pixmap) (buf : list byte) (r : Z * list byte) :
  r ∈ scan pix buf ->
  exists row, 0 <= row < h pix /\
    r = (samples pix + row_offset pix row, row_of buf (row_offset pix row) (w pix)).
Proof.
  unfold scan. intros (row & -> & Hrow)%list_elem_of_fmap.
  apply elem_of_seqZ in Hrow. exists row. split; [lia|done].
Qed.


Lemma row_events_elem (rows : list (Z * list byte)) (row : Z) (bytes : list byte) :
  ev_png_write_row row bytes ∈ row_events rows <-> (row, bytes) ∈ rows.
Proof.
  unfold row_events. rewrite list_elem_of_fmap. split.
  - intros ([r bs] & [= -> ->] & Hin). done.
  - intros Hin. by exists (row, bytes).
Qed.

(** Every event of the encoder, whatever the faults. *)
Lemma encoder_trace_elem (E : environment) (pix : fz_pixmap) (buf : list byte)
    (fname : string) (ev : event) :
  ev ∈ encoder_trace E pix buf fname ->
  ev = ev_fopen fname "wb" \/ ev = ev_png_set_compression_level 1 \/
  ev = ev_png_set_IHDR (gray_IHDR pix) \/ ev = ev_png_write_info \/
  ev ∈ row_events (scan pix buf) \/ ev = ev_png_write_end \/
  ev = ev_fclose fname \/ ev = ev_stderr ("fopen" +:+ ": " +:+ strerror E +:+ newline).
Proof.
  unfold encoder_trace. intros Hev.
  pose proof (subseteq_take (rows_ok E 0 (Z.to_nat (h pix))) (scan pix buf)) as Hsub.
  assert (Hrows : forall e, e ∈ row_events (take (rows_ok E 0 (Z.to_nat (h pix))) (scan pix buf))
                    -> e ∈ row_events (scan pix buf)).
  { unfold row_events. intros e (r & -> & Hr)%list_elem_of_fmap.
    apply list_elem_of_fmap. exists r. split; [done|]. by apply Hsub. }
  destruct (writable E fname), (png_fault E call_set_IHDR), (png_fault E call_write_info);
    cbn zeta in Hev; try case_decide; split_elem Hev; subst; auto 10.
Qed.

Lemma scanlines_app (tr1 tr2 : list event) :
  scanlines (tr1 ++ tr2) = scanlines tr1 ++ scanlines tr2.
Proof. apply omap_app. Qed.

Lemma scanlines_row_events (rows : list (Z * list byte)) :
  scanlines (row_events rows) = rows.
Proof.
  induction rows as [|[row bytes] rows IH]; [done|].
  unfold scanlines, row_events in *. simpl. f_equal. exact IH.
Qed.

Lemma scan_exact (pix : fz_pixmap) (buf : list byte) :
  0 <= stride pix -> stride pix * h pix < 2 ^ SIZE_WIDTH ->
  scan pix buf =
  (fun row => (samples pix + row * stride pix, row_of buf (row * stride pix) (w pix)))
    <$> seqZ 0 (h pix).
Proof.
  intros Hs Hfit. unfold scan. apply Forall_fmap_ext_1, Forall_forall.
  intros row [Hr0 Hr1]%elem_of_seqZ.
  rewrite row_offset_exact by (done || lia). done.
Qed.

Lemma row_of_length (buf : list byte) (off len : Z) :
  (length (row_of buf off len) <= Z.to_nat len)%nat.
Proof. unfold row_of. rewrite length_take. lia. Qed.

(** ** Strings *)

Lemma substring_all (s : string) (k : nat) :
  (String.length s <= k)%nat -> String.substring 0 k s = s.
Proof.
  revert k. induction s as [|c s IH]; intros k Hk.
  - by destruct k.
  - destruct k as [|k]; simpl in *; [lia|]. rewrite IH by lia. done.
Qed.

Lemma length_append (s t : string) :
  String.length (s +:+ t) = (String.length s + String.length t)%nat.
Proof. induction s as [|c s IH]; simpl; [done|]. by rewrite IH. Qed.

Lemma out_name_short (prefix : string) :
  (String.length prefix <= 251)%nat -> out_name prefix = prefix +:+ ".png".
Proof.
  intros Hlen. unfold out_name, snprintf. apply substring_all.
  rewrite length_append. simpl. lia.
Qed.

Lemma opened_app (tr1 tr2 : list event) : opened (tr1 ++ tr2) = opened tr1 ++ opened tr2.
Proof. apply omap_app. Qed.

Lemma opened_row_events (rows : list (Z * list byte)) : opened (row_events rows) = [].
Proof. induction rows as [|r rows IH]; [done|]. exact IH. Qed.

Lemma opened_stdout (tail : list event) : Forall is_stdout tail -> opened tail = [].
Proof.
  induction 1 as [|ev tail [s ->] _ IH]; [done|]. exact IH.
Qed.

Lemma opened_encoder (E : environment) (pix : fz_pixmap) (buf : list byte) (fname : string) :
  opened (encoder_trace E pix buf fname) = [(fname, "wb")].
Proof.
  unfold encoder_trace.
  destruct (writable E fname); [|done].
  destruct (png_fault E call_set_IHDR); [done|].
  destruct (png_fault E call_write_info); [done|]. cbn zeta.
  change (opened ?l) with (opened ([ev_fopen fname "wb"; ev_png_set_compression_level 1;
    ev_png_set_IHDR (gray_IHDR pix); ev_png_write_info] ++
    row_events (take (rows_ok E 0 (Z.to_nat (h pix))) (scan pix buf)) ++
    (if decide (rows_ok E 0 (Z.to_nat (h pix)) = Z.to_nat (h pix))
     then [ev_png_write_end; ev_fclose fname] else [ev_fclose fname]))).
  rewrite !opened_app, opened_row_events. by case_decide.
Qed.

Lemma levels_set_app (tr1 tr2 : list event) :
  levels_set (tr1 ++ tr2) = levels_set tr1 ++ levels_set tr2.
Proof. apply omap_app. Qed.

Lemma levels_set_row_events (rows : list (Z * list byte)) : levels_set (row_events rows) = [].
Proof. induction rows as [|r rows IH]; [done|]. exact IH. Qed.

Lemma levels_set_encoder (E : environment) (pix : fz_pixmap) (buf : list byte)
    (fname : string) :
  writable E fname = true ->
  levels_set (encoder_trace E pix buf fname) = [Z_BEST_SPEED].
Proof.
  intros Hwr. unfold encoder_trace. rewrite Hwr.
  destruct (png_fault E call_set_IHDR); [done|].
  destruct (png_fault E call_write_info); [done|]. cbn zeta.
  change (levels_set ?l) with (levels_set ([ev_fopen fname "wb"; ev_png_set_compression_level 1;
    ev_png_set_IHDR (gray_IHDR pix); ev_png_write_info] ++
    row_events (take (rows_ok E 0 (Z.to_nat (h pix))) (scan pix buf)) ++
    (if decide (rows_ok E 0 (Z.to_nat (h pix)) = Z.to_nat (h pix))
     then [ev_png_write_end; ev_fclose fname] else [ev_fclose fname]))).
  rewrite !levels_set_app, levels_set_row_events. by case_decide.
Qed.

Lemma encoded_png_level (E : environment) (pix : fz_pixmap) (buf : list byte)
    (fname : string) (p0 : png_struct) :
  writable E fname = true ->
  zlib_level (encoded_png E pix buf fname p0) = Z_BEST_SPEED.
Proof.
  intros Hwr. unfold encoded_png. rewrite Hwr.
  destruct (png_fault E call_set_IHDR); [done|].
  destruct (png_fault E call_write_info); [done|]. cbn zeta.
  case_decide; [destruct (png_fault E call_write_end)|]; done.
Qed.

(** ** Runs that differ in clock, addresses and stale memory only *)

Section TwoRuns.

Context (L : services) (E1 E2 : environment).
Hypothesis same_readable : forall path, readable E1 path = readable E2 path.
Hypothesis same_writable : forall path, writable E1 path = writable E2 path.
Hypothesis same_faults : forall c, png_fault E1 c = png_fault E2 c.







End TwoRuns.

(** ** Projections of an updated world *)

Lemma mem_emit (ev : event) (wd : world) : mem (emit ev wd) = mem wd.
Proof. done. Qed.
Lemma mem_set_png (g : png_struct -> png_struct) (wd : world) : mem (set_png g wd) = mem wd.
Proof. done. Qed.
Lemma mem_set_fs (g : gmap string (list byte) -> gmap string (list byte)) (wd : world) :
  mem (set_fs g wd) = mem wd.
Proof. done. Qed.
Lemma ticks_emit (ev : event) (wd : world) : ticks (emit ev wd) = ticks wd.
Proof. done. Qed.
Lemma ticks_set_png (g : png_struct -> png_struct) (wd : world) :
  ticks (set_png g wd) = ticks wd.
Proof. done. Qed.
Lemma ticks_set_fs (g : gmap string (list byte) -> gmap string (list byte)) (wd : world) :
  ticks (set_fs g wd) = ticks wd.
Proof. done. Qed.
Lemma png_emit (ev : event) (wd : world) : png (emit ev wd) = png wd.
Proof. done. Qed.
Lemma png_set_png (g : png_struct -> png_struct) (wd : world) :
  png (set_png g wd) = g (png wd).
Proof. done. Qed.
Lemma png_set_fs (g : gmap string (list byte) -> gmap string (list byte)) (wd : world) :
  png (set_fs g wd) = png wd.
Proof. done. Qed.

Create Rewrite HintDb world.
#[local] Hint Rewrite mem_emit mem_set_png mem_set_fs png_flushed_mem rows_step_mem
  ticks_emit ticks_set_png ticks_set_fs png_flushed_ticks rows_step_ticks
  png_emit png_set_png png_set_fs png_flushed_png rows_step_png : world.

(** ** The encoder in every environment *)

Section EncoderAlways.

Context (L : services) (E : environment).

Lemma encoded_mem (pix : fz_pixmap) (buf : list byte) (fname : string) (wd : world) :
  mem (encoded L E pix buf fname wd).2 = mem wd.
Proof.
  unfold encoded.
  destruct (writable E fname); [|done].
  destruct (png_fault E call_set_IHDR); [done|].
  destruct (png_fault E call_write_info); [done|]. cbn zeta.
  case_decide; [destruct (png_fault E call_write_end)|]; cbn [snd];
    autorewrite with world; done.
Qed.

Lemma encoded_ticks (pix : fz_pixmap) (buf : list byte) (fname : string) (wd : world) :
  ticks (encoded L E pix buf fname wd).2 = ticks wd.
Proof.
  unfold encoded.
  destruct (writable E fname); [|done].
  destruct (png_fault E call_set_IHDR); [done|].
  destruct (png_fault E call_write_info); [done|]. cbn zeta.
  case_decide; [destruct (png_fault E call_write_end)|]; cbn [snd];
    autorewrite with world; done.
Qed.

Lemma encoded_png_eq (pix : fz_pixmap) (buf : list byte) (fname : string) (wd : world) :
  png (encoded L E pix buf fname wd).2 = encoded_png E pix buf fname (png wd).
Proof.
  unfold encoded, encoded_png.
  destruct (writable E fname); [|done].
  destruct (png_fault E call_set_IHDR); [done|].
  destruct (png_fault E call_write_info); [done|]. cbn zeta.
  rewrite <- fmap_take.
  case_decide; [destruct (png_fault E call_write_end)|]; cbn [snd];
    autorewrite with world; done.
Qed.

End EncoderAlways.

(** * The claims *)

(** C1: for a valid single-page document, when the output can be written,
    the run ends with status 0 and leaves at [<prefix>.png] the stream of a
    PNG whose header declares the page box scaled by 4 and rounded outward
    (ceiling of the far edges minus floor of the near edges), 8 bits,
    grayscale; a 612 by 792 box at an integer origin gives 2448 by 3168. *)
Theorem image_dimensions (L : services) (E : environment) (prog inp prefix : string)
    (wd : world) (doc : fz_document) (page : fz_page) :
  document_at L E wd inp = Some doc ->
  pages doc = [page] ->
  valid_rect (mediabox page) ->
  writable E (out_name prefix) = true ->
  no_png_fault E ->
  exists wd' hdr,
    run L E [prog; inp; prefix] wd = (Exited 0, wd') /\
    fs wd' !! out_name prefix = Some (png_bytes L (png wd')) /\
    IHDR (png wd') = Some hdr /\
    width hdr = Qceiling (4 * x1 (mediabox page)) - Qfloor (4 * x0 (mediabox page)) /\
    height hdr = Qceiling (4 * y1 (mediabox page)) - Qfloor (4 * y0 (mediabox page)) /\
    bit_depth hdr = 8 /\ color_type hdr = PNG_COLOR_TYPE_GRAY /\
    (forall a b : Z,
       mediabox page = mk_rect (inject_Z a) (inject_Z b)
                               (inject_Z (a + 612)) (inject_Z (b + 792)) ->
       width hdr = 2448 /\ height hdr = 3168).
Proof.
  intros Hdoc Hpages Hvalid Hwr Hno.
  assert (Hpage : first_page doc = Some page) by (unfold first_page; by rewrite Hpages).
  rewrite (run_renders L E prog inp prefix wd doc page Hdoc Hpage).
  destruct (encoded_success L E (page_pixmap E page) (drawn L page (page_pixmap E page))
              (out_name prefix) (rendered L E inp page wd) Hwr Hno)
    as (wd1 & -> & Hpng & _ & Hfs & _ & _).
  destruct (finished_ok L E prefix (clock E (ticks wd)) wd1) as (wd2 & -> & Hfs2 & Hpng2 & _).
  destruct (page_pixmap_size E page Hvalid) as [Hw Hh].
  exists wd2, (gray_IHDR (page_pixmap E page)).
  split; [done|]. split.
  { rewrite Hfs2, Hfs, Hpng2, Hpng. apply lookup_insert_eq. }
  split; [by rewrite Hpng2, Hpng|].
  cbn [width height bit_depth color_type gray_IHDR].
  split; [done|]. split; [done|]. split; [done|]. split; [done|].
  intros a b Hbox. rewrite Hw, Hh, Hbox. cbn [x0 y0 x1 y1].
  unfold Qceiling, Qfloor. simpl. rewrite !Z.div_1_r. lia.
Qed.

Lemma image_dimensions_witness :
  exists wd' hdr,
    run letter_services demo_environment ["prog"; "in.pdf"; "out"] demo_world
      = (Exited 0, wd') /\
    fs wd' !! out_name "out" = Some (png_bytes letter_services (png wd')) /\
    IHDR (png wd') = Some hdr /\
    width hdr = Qceiling (4 * x1 letter) - Qfloor (4 * x0 letter) /\
    height hdr = Qceiling (4 * y1 letter) - Qfloor (4 * y0 letter) /\
    bit_depth hdr = 8 /\ color_type hdr = PNG_COLOR_TYPE_GRAY /\
    (forall a b : Z,
       letter = mk_rect (inject_Z a) (inject_Z b)
                        (inject_Z (a + 612)) (inject_Z (b + 792)) ->
       width hdr = 2448 /\ height hdr = 3168).
Proof.
  apply (image_dimensions letter_services demo_environment "prog" "in.pdf" "out" demo_world
           (mk_document [mk_page letter [Byte.x25; Byte.x50]])
           (mk_page letter [Byte.x25; Byte.x50])).
  - vm_compute. reflexivity.
  - reflexivity.
  - split; vm_compute; discriminate.
  - reflexivity.
  - intros c. reflexivity.
Defined.



(** C3: the exit status follows the outcome.  Any argument count other
    than two prints the usage line on standard error and ends with status
    1, touching nothing else.  With two arguments and a first page that
    loads: status 2 when the output cannot be opened, status 3 when libpng
    fails in a call the encoder makes, status 0 otherwise, and then exactly
    the complete image is on file at the output name. *)
Theorem exit_status (L : services) (E : environment) (argv : list string) (wd : world) :
  (length argv <> 3%nat ->
   run L E argv wd = (Exited 1, emit (ev_stderr (usage (nth 0 argv "(null)"))) wd)) /\
  (forall prog inp prefix doc page,
     argv = [prog; inp; prefix] ->
     document_at L E wd inp = Some doc ->
     first_page doc = Some page ->
     let pix := page_pixmap E page in
     let out := out_name prefix in
     (writable E out = false -> (run L E argv wd).1 = Exited 2) /\
     (writable E out = true -> png_fails E (h pix) -> (run L E argv wd).1 = Exited 3) /\
     (writable E out = true -> ~ png_fails E (h pix) ->
      (run L E argv wd).1 = Exited 0 /\
      fs (run L E argv wd).2 =
        <[out := png_bytes L (png_complete pix (drawn L page pix) out)]> (fs wd))).
Proof.
  split; [apply run_usage|].
  intros prog inp prefix doc page -> Hdoc Hpage pix out.
  rewrite (run_renders_outcome L E prog inp prefix wd doc page Hdoc Hpage).
  rewrite (run_renders_fs L E prog inp prefix wd doc page Hdoc Hpage).
  fold pix out. split; [|split].
  - intros Hwr. unfold encoded_result. by rewrite Hwr.
  - intros Hwr Hf. by rewrite encoded_result_fail.
  - intros Hwr Hno. rewrite encoded_result_ok by done. split; [done|].
    by apply encoded_fs_ok.
Qed.

Lemma exit_status_witness :
  (run demo_services demo_environment ["prog"; "in.pdf"] demo_world).1 = Exited 1 /\
  (run demo_services readonly_environment ["prog"; "in.pdf"; "out"] demo_world).1 = Exited 2 /\
  (run demo_services faulty_environment ["prog"; "in.pdf"; "out"] demo_world).1 = Exited 3 /\
  (run demo_services demo_environment ["prog"; "in.pdf"; "out"] demo_world).1 = Exited 0.
Proof.
  split; [|split; [|split]].
  - rewrite (proj1 (exit_status demo_services demo_environment ["prog"; "in.pdf"] demo_world)).
    + reflexivity.
    + simpl. lia.
  - apply (proj2 (exit_status demo_services readonly_environment
                    ["prog"; "in.pdf"; "out"] demo_world)
             "prog" "in.pdf" "out" demo_document demo_page eq_refl).
    + vm_compute. reflexivity.
    + reflexivity.
    + reflexivity.
  - apply (proj2 (exit_status demo_services faulty_environment
                    ["prog"; "in.pdf"; "out"] demo_world)
             "prog" "in.pdf" "out" demo_document demo_page eq_refl).
    + vm_compute. reflexivity.
    + reflexivity.
    + reflexivity.
    + right. right. left. exists 1%nat. split; [vm_compute; lia|reflexivity].
  - apply (proj2 (exit_status demo_services demo_environment
                    ["prog"; "in.pdf"; "out"] demo_world)
             "prog" "in.pdf" "out" demo_document demo_page eq_refl).
    + vm_compute. reflexivity.
    + reflexivity.
    + reflexivity.
    + apply no_fault_no_failure. intros c. reflexivity.
Defined.

(** C4: on a buffer of height h and stride s that the encoder can read,
    with the output writable and libpng not failing, the scanlines it
    emits are exactly rows 0, 1, ..., h-1 in that order, each once, and row
    y is the [w] bytes read at [samples + y * stride]. *)
Theorem scanlines_in_order (L : services) (E : environment) (pix : fz_pixmap)
    (buf : list byte) (fname : string) (wd : world) :
  encodable pix buf (mem wd) ->
  writable E fname = true ->
  no_png_fault E ->
  scanlines (trace (write_png_fast L E pix fname wd).2) =
  scanlines (trace wd) ++
  ((fun row => (samples pix + row * stride pix, row_of buf (row * stride pix) (w pix)))
     <$> seqZ 0 (h pix)).
Proof.
  intros (Hw & Hsz & Hfit & Hh) Hwr Hno.
  rewrite (write_png_fast_spec L E pix buf fname wd Hw Hsz Hh).
  destruct (encoded_success L E pix buf fname wd Hwr Hno) as (wd' & -> & _ & Htr & _).
  cbn [snd]. rewrite Htr, scanlines_app. f_equal.
  unfold encoder_events. rewrite !scanlines_app, scanlines_row_events.
  cbn. rewrite app_nil_r. apply scan_exact; [lia|done].
Qed.

Lemma demo_encodable : encodable demo_pixmap demo_buffer (mem demo_rendered).
Proof.
  split; [vm_compute; split; discriminate|].
  split; [reflexivity|]. split; [reflexivity|]. vm_compute. reflexivity.
Defined.

Lemma scanlines_in_order_witness :
  scanlines (trace (write_png_fast demo_services demo_environment demo_pixmap "out.png"
                      demo_rendered).2) =
  scanlines (trace demo_rendered) ++
  ((fun row => (samples demo_pixmap + row * stride demo_pixmap,
                row_of demo_buffer (row * stride demo_pixmap) (w demo_pixmap)))
     <$> seqZ 0 (h demo_pixmap)).
Proof.
  apply (scanlines_in_order demo_services demo_environment demo_pixmap demo_buffer
           "out.png" demo_rendered).
  - exact demo_encodable.
  - reflexivity.
  - intros c. reflexivity.
Defined.

(** C5, as the code has it: in every run of the encoder in which the
    output file opens, whatever the faults, [png_set_compression_level] is
    the first libpng call logged, right after [fopen]; it is made exactly
    once, with [Z_BEST_SPEED], and that is the level the writer keeps.  So a
    scanline is written only after the level was set, and no other level is
    ever set.  [Z_BEST_SPEED] is the lowest of zlib's levels that compress;
    the lowest level zlib accepts is [Z_NO_COMPRESSION], which is lower. *)
Theorem compression_level_first (L : services) (E : environment) (pix : fz_pixmap)
    (buf : list byte) (fname : string) (wd : world) :
  encodable pix buf (mem wd) ->
  exists evs,
    trace (write_png_fast L E pix fname wd).2 = trace wd ++ evs /\
    (writable E fname = true ->
       (exists after,
          evs = ev_fopen fname "wb" :: ev_png_set_compression_level Z_BEST_SPEED :: after) /\
       levels_set evs = [Z_BEST_SPEED] /\
       zlib_level (png (write_png_fast L E pix fname wd).2) = Z_BEST_SPEED) /\
    (forall before row bytes after,
       evs = before ++ ev_png_write_row row bytes :: after ->
       ev_png_set_compression_level Z_BEST_SPEED ∈ before) /\
    (forall level, ev_png_set_compression_level level ∈ evs -> level = Z_BEST_SPEED) /\
    compresses Z_BEST_SPEED /\
    (forall level, compresses level -> Z_BEST_SPEED <= level) /\
    zlib_level_accepted Z_NO_COMPRESSION /\
    Z_NO_COMPRESSION < Z_BEST_SPEED.
Proof.
  intros (Hw & Hsz & Hfit & Hh).
  rewrite (write_png_fast_spec L E pix buf fname wd Hw Hsz Hh).
  exists (encoder_trace E pix buf fname). split; [apply encoded_trace_eq|].
  split; [|split; [|split; [|split; [|split; [|split]]]]].
  - intros Hwr. split; [|split].
    + unfold encoder_trace. rewrite Hwr. eexists. reflexivity.
    + by apply levels_set_encoder.
    + rewrite encoded_png_eq. by apply encoded_png_level.
  - intros before row bytes after Hevs. unfold encoder_trace in Hevs.
    destruct (writable E fname).
    + destruct before as [|e1 [|e2 before]]; simpl in Hevs; try discriminate.
      injection Hevs as <- <- _. apply list_elem_of_further, list_elem_of_here.
    + destruct before as [|e1 [|e2 [|e3 before]]]; simpl in Hevs; discriminate.
  - intros level Hev. apply encoder_trace_elem in Hev.
    destruct Hev as [?|[Hev|[?|[?|[Hev|[?|[?|?]]]]]]]; try discriminate.
    + by injection Hev as ->.
    + unfold row_events in Hev. by apply list_elem_of_fmap in Hev as (? & ? & _).
  - unfold compresses, zlib_level_accepted, Z_BEST_SPEED, Z_BEST_COMPRESSION, Z_NO_COMPRESSION.
    lia.
  - unfold compresses, zlib_level_accepted, Z_BEST_SPEED, Z_NO_COMPRESSION.
    intros level [[Hlo _] Hne]. lia.
  - unfold zlib_level_accepted, Z_BEST_COMPRESSION, Z_NO_COMPRESSION. lia.
  - reflexivity.
Qed.

Lemma compression_level_first_witness :
  exists evs,
    trace (write_png_fast demo_services demo_environment demo_pixmap "out.png"
             demo_rendered).2 = trace demo_rendered ++ evs /\
    (writable demo_environment "out.png" = true ->
       (exists after,
          evs = ev_fopen "out.png" "wb" :: ev_png_set_compression_level Z_BEST_SPEED :: after) /\
       levels_set evs = [Z_BEST_SPEED] /\
       zlib_level (png (write_png_fast demo_services demo_environment demo_pixmap "out.png"
                          demo_rendered).2) = Z_BEST_SPEED) /\
    (forall before row bytes after,
       evs = before ++ ev_png_write_row row bytes :: after ->
       ev_png_set_compression_level Z_BEST_SPEED ∈ before) /\
    (forall level, ev_png_set_compression_level level ∈ evs -> level = Z_BEST_SPEED) /\
    compresses Z_BEST_SPEED /\
    (forall level, compresses level -> Z_BEST_SPEED <= level) /\
    zlib_level_accepted Z_NO_COMPRESSION /\
    Z_NO_COMPRESSION < Z_BEST_SPEED.
Proof.
  apply (compression_level_first demo_services demo_environment demo_pixmap demo_buffer
           "out.png" demo_rendered).
  exact demo_encodable.
Defined.

(** C5 as stated fails: the level the encoder sets, and the only one, is
    1, while zlib accepts the lower level 0, which stores the data without
    compressing it and is the least effort there is. *)
Lemma compression_level_not_lowest :
  let wd' := (write_png_fast demo_services demo_environment demo_pixmap "out.png"
                demo_rendered).2 in
  levels_set (trace wd') = [1] /\
  zlib_level (png wd') = 1 /\
  zlib_level_accepted Z_NO_COMPRESSION /\
  Z_NO_COMPRESSION < zlib_level (png wd').
Proof.
  split; [vm_compute; reflexivity|]. split; [vm_compute; reflexivity|].
  split; [unfold zlib_level_accepted, Z_NO_COMPRESSION, Z_BEST_COMPRESSION; lia|].
  vm_compute. reflexivity.
Qed.

(** C10: the row-pointer table has h entries, entry y is the address
    [samples + y * stride], and in every run of the encoder, whatever the
    faults, each scanline is read inside the stride * h bytes of the buffer
    and no undefined byte is read. *)
Theorem rows_within_buffer (L : services) (E : environment) (pix : fz_pixmap)
    (buf : list byte) (fname : string) (wd : world) :
  encodable pix buf (mem wd) ->
  length (build_rows pix) = Z.to_nat (h pix) /\
  (forall row, 0 <= row < h pix ->
     build_rows pix !! Z.to_nat row = Some (samples pix + row * stride pix)) /\
  exists evs,
    trace (write_png_fast L E pix fname wd).2 = trace wd ++ evs /\
    (forall row bytes,
       ev_png_write_row row bytes ∈ evs ->
       samples pix <= row /\
       row + Z.of_nat (length bytes) <= samples pix + stride pix * h pix /\
       mem_read (mem wd) row (w pix) = Some bytes) /\
    (write_png_fast L E pix fname wd).1 <> Stop Undefined.
Proof.
  intros (Hw & Hsz & Hfit & Hh).
  split; [|split].
  - rewrite build_rows_eq, length_fmap, length_seqZ. done.
  - intros row Hrow. rewrite build_rows_eq, list_lookup_fmap.
    rewrite (proj2 (lookup_seqZ 0 (h pix) (Z.to_nat row) row)) by lia.
    simpl. rewrite row_offset_exact by (done || lia). done.
  - rewrite (write_png_fast_spec L E pix buf fname wd Hw Hsz Hh).
    exists (encoder_trace E pix buf fname). split; [apply encoded_trace_eq|]. split.
    + intros row bytes Hev. apply encoder_trace_elem in Hev.
      destruct Hev as [?|[?|[?|[?|[Hev|[?|[?|?]]]]]]]; try discriminate.
      apply row_events_elem in Hev.
      pose proof (scan_readable pix (mem wd) buf Hw Hsz Hh) as Hread.
      rewrite Forall_forall in Hread. pose proof (Hread _ Hev) as Hrd. simpl in Hrd.
      apply scan_elem in Hev as (r & Hr & [= -> ->]).
      pose proof (row_offset_bounds pix r ltac:(lia) ltac:(lia)) as Hoff.
      pose proof (row_of_length buf (row_offset pix r) (w pix)) as Hlen.
      split; [lia|]. split; [nia|done].
    + rewrite encoded_result_eq. unfold encoded_result.
      destruct (writable E fname); [|done].
      destruct (png_fault E call_set_IHDR); [done|].
      destruct (png_fault E call_write_info); [done|].
      case_decide; [|done]. by destruct (png_fault E call_write_end).
Qed.

Lemma rows_within_buffer_witness :
  length (build_rows demo_pixmap) = Z.to_nat (h demo_pixmap) /\
  (forall row, 0 <= row < h demo_pixmap ->
     build_rows demo_pixmap !! Z.to_nat row
       = Some (samples demo_pixmap + row * stride demo_pixmap)) /\
  exists evs,
    trace (write_png_fast demo_services demo_environment demo_pixmap "out.png"
             demo_rendered).2 = trace demo_rendered ++ evs /\
    (forall row bytes,
       ev_png_write_row row bytes ∈ evs ->
       samples demo_pixmap <= row /\
       row + Z.of_nat (length bytes)
         <= samples demo_pixmap + stride demo_pixmap * h demo_pixmap /\
       mem_read (mem demo_rendered) row (w demo_pixmap) = Some bytes) /\
    (write_png_fast demo_services demo_environment demo_pixmap "out.png"
       demo_rendered).1 <> Stop Undefined.
Proof.
  apply (rows_within_buffer demo_services demo_environment demo_pixmap demo_buffer
           "out.png" demo_rendered).
  exact demo_encodable.
Defined.

(** C6, as the code has it: on a successful run the one file opened, in
    mode "wb", and the one path whose content changes is
    [snprintf(out_name, 256, "%s.png", prefix)], that is the first 255
    characters of [<prefix>.png]; it is exactly [<prefix>.png] for a prefix
    of at most 251 characters.  Whatever was at that path is replaced. *)
Theorem output_file_name (L : services) (E : environment) (prog inp prefix : string)
    (wd : world) (doc : fz_document) (page : fz_page) :
  document_at L E wd inp = Some doc ->
  first_page doc = Some page ->
  writable E (out_name prefix) = true ->
  ~ png_fails E (h (page_pixmap E page)) ->
  let pix := page_pixmap E page in
  let out := out_name prefix in
  let r := run L E [prog; inp; prefix] wd in
  r.1 = Exited 0 /\
  fs r.2 = <[out := png_bytes L (png_complete pix (drawn L page pix) out)]> (fs wd) /\
  (exists evs, trace r.2 = trace wd ++ evs /\ opened evs = [(out, "wb")]) /\
  out = String.substring 0 255 (prefix +:+ ".png") /\
  ((String.length prefix <= 251)%nat -> out = prefix +:+ ".png").
Proof.
  intros Hdoc Hpage Hwr Hno pix out r. unfold r.
  rewrite (run_renders_outcome L E prog inp prefix wd doc page Hdoc Hpage).
  rewrite (run_renders_fs L E prog inp prefix wd doc page Hdoc Hpage).
  fold pix out. rewrite encoded_result_ok by done.
  split; [done|]. split; [by apply encoded_fs_ok|]. split; [|split; [done|apply out_name_short]].
  destruct (run_renders_trace L E prog inp prefix wd doc page Hdoc Hpage) as (tail & Htr & Htail).
  eexists. split; [exact Htr|].
  rewrite !opened_app, opened_encoder, (opened_stdout tail Htail). done.
Qed.

Lemma output_file_name_witness :
  let pix := demo_pixmap in
  let out := out_name "out" in
  let r := run demo_services demo_environment ["prog"; "in.pdf"; "out"] demo_world in
  r.1 = Exited 0 /\
  fs r.2 = <[out := png_bytes demo_services
                      (png_complete pix (drawn demo_services demo_page pix) out)]>
             (fs demo_world) /\
  (exists evs, trace r.2 = trace demo_world ++ evs /\ opened evs = [(out, "wb")]) /\
  out = String.substring 0 255 ("out" +:+ ".png") /\
  ((String.length "out" <= 251)%nat -> out = "out" +:+ ".png").
Proof.
  apply (output_file_name demo_services demo_environment "prog" "in.pdf" "out" demo_world
           demo_document demo_page).
  - vm_compute. reflexivity.
  - reflexivity.
  - reflexivity.
  - apply no_fault_no_failure. intros c. reflexivity.
Defined.

(** C6 as stated fails for a long prefix: with a prefix of 252 characters
    the run succeeds, nothing exists at [<prefix>.png] afterwards, and the
    image is at the name cut after 255 characters, [<prefix>.pn]. *)
Lemma output_file_name_truncated :
  let r := run demo_services demo_environment ["prog"; "in.pdf"; long_prefix] demo_world in
  r.1 = Exited 0 /\
  fs r.2 !! (long_prefix +:+ ".png") = None /\
  is_Some (fs r.2 !! (long_prefix +:+ ".pn")) /\
  opened (trace r.2) = [(long_prefix +:+ ".pn", "wb")].
Proof.
  vm_compute. split; [reflexivity|]. split; [reflexivity|]. split; [eexists|]; reflexivity.
Qed.

(** C7: when the input path does not exist, cannot be read or does not
    parse, the run stops in [fz_open_document] with the document-open error:
    that call is the last thing logged, no file was opened for writing and
    the file system is as before. *)
Theorem open_failure_no_output (L : services) (E : environment) (prog inp prefix : string)
    (wd : world) :
  (fs wd !! inp = None \/ readable E inp = false \/
   exists bytes, fs wd !! inp = Some bytes /\ parse_document L bytes = None) ->
  let r := run L E [prog; inp; prefix] wd in
  r.1 = FzUncaught DocumentOpenError /\
  fs r.2 = fs wd /\
  trace r.2 = trace wd ++ [ev_fz_open_document inp] /\
  opened (trace r.2) = opened (trace wd).
Proof.
  intros Hbad r. unfold r.
  assert (Hdoc : document_at L E wd inp = None).
  { unfold document_at. destruct Hbad as [H|[H|(bytes & H1 & H2)]].
    - rewrite H. by destruct (readable E inp).
    - by rewrite H.
    - rewrite H1. by destruct (readable E inp). }
  rewrite (run_open_fails L E prog inp prefix wd Hdoc). cbn.
  split; [done|]. split; [done|]. split; [done|].
  rewrite opened_app. apply app_nil_r.
Qed.

Lemma open_failure_no_output_witness :
  let r := run demo_services demo_environment ["prog"; "missing.pdf"; "out"] demo_world in
  r.1 = FzUncaught DocumentOpenError /\
  fs r.2 = fs demo_world /\
  trace r.2 = trace demo_world ++ [ev_fz_open_document "missing.pdf"] /\
  opened (trace r.2) = opened (trace demo_world).
Proof.
  apply (open_failure_no_output demo_services demo_environment "prog" "missing.pdf" "out"
           demo_world).
  left. vm_compute. reflexivity.
Defined.



(** C8, what the code does: [main] gives the 4x matrix to
    [fz_new_draw_device] and again to [fz_run_page], so the device
    rasterises with their product, a 16x scale, into the buffer sized with
    the 4x scale.  For the 612 by 792 page the content is laid out over
    9792 by 12672 pixels while the buffer is 2448 by 3168. *)
Theorem zoom_applied_twice :
  let r := run letter_services demo_environment ["prog"; "in.pdf"; "out"] demo_world in
  exists evs current,
    trace r.2 = trace demo_world ++ evs /\
    ev_fz_new_draw_device (fz_scale 4 4) ∈ evs /\
    ev_fz_run_page (fz_scale 4 4) ∈ evs /\
    ev_rasterize (fz_scale 16 16) (mk_irect 0 0 2448 3168) current ∈ evs /\
    fz_round_rect (fz_transform_rect letter (fz_scale 4 4)) = mk_irect 0 0 2448 3168 /\
    fz_round_rect (fz_transform_rect letter (fz_scale 16 16)) = mk_irect 0 0 9792 12672.
Proof.
  intros r. unfold r.
  destruct (run_renders_trace letter_services demo_environment "prog" "in.pdf" "out"
              demo_world letter_document letter_page) as (tail & Htr & _).
  { vm_compute. reflexivity. }
  { reflexivity. }
  eexists. exists (canvas (page_pixmap demo_environment letter_page)).
  split; [exact Htr|].
  unfold render_events. cbn zeta.
  split; [|split; [|split; [|split]]].
  - apply elem_of_app. left. do 4 apply list_elem_of_further. apply list_elem_of_here.
  - apply elem_of_app. left. do 5 apply list_elem_of_further. apply list_elem_of_here.
  - apply elem_of_app. left. do 6 apply list_elem_of_further.
    change (fz_concat zoom zoom) with (fz_scale 16 16).
    change (fz_pixmap_bbox (page_pixmap demo_environment letter_page))
      with (mk_irect 0 0 2448 3168).
    apply list_elem_of_here.
  - reflexivity.
  - reflexivity.
Qed.

(** * Further properties of the program *)

(** ** Helpers *)

Lemma encoded_result_cases (E : environment) (rows : Z) (fname : string) :
  encoded_result E rows fname = Ok tt \/
  encoded_result E rows fname = Stop (Exited 2) \/
  encoded_result E rows fname = Stop (Exited 3).
Proof.
  unfold encoded_result.
  destruct (writable E fname); [|auto].
  destruct (png_fault E call_set_IHDR); [auto|].
  destruct (png_fault E call_write_info); [auto|].
  case_decide; [|auto]. destruct (png_fault E call_write_end); auto.
Qed.

Lemma argv_cases (argv : list string) :
  length argv <> 3%nat \/ exists prog inp prefix, argv = [prog; inp; prefix].
Proof.
  destruct argv as [|prog [|inp [|prefix [|extra argv]]]]; simpl; try (left; lia).
  right. by exists prog, inp, prefix.
Qed.

(** X1: a document that opens but has no page stops the run in
    [fz_load_page]: the two MuPDF calls are all that is logged, no file is
    opened for writing and the file system is as before. *)
Theorem page_load_failure_no_output (L : services) (E : environment)
    (prog inp prefix : string) (wd : world) (doc : fz_document) :
  document_at L E wd inp = Some doc ->
  pages doc = [] ->
  let r := run L E [prog; inp; prefix] wd in
  r.1 = FzUncaught PageLoadError /\
  fs r.2 = fs wd /\
  trace r.2 = trace wd ++ [ev_fz_open_document inp; ev_fz_load_page 0] /\
  opened (trace r.2) = opened (trace wd).
Proof.
  intros Hdoc Hpages r. unfold r.
  assert (Hpage : first_page doc = None) by (unfold first_page; by rewrite Hpages).
  rewrite (run_load_fails L E prog inp prefix wd doc Hdoc Hpage). cbn.
  split; [done|]. split; [done|]. split; [by rewrite <- app_assoc|].
  rewrite !opened_app. cbn. by rewrite !app_nil_r.
Qed.

Lemma page_load_failure_no_output_witness :
  let r := run empty_services demo_environment ["prog"; "in.pdf"; "out"] demo_world in
  r.1 = FzUncaught PageLoadError /\
  fs r.2 = fs demo_world /\
  trace r.2 = trace demo_world ++ [ev_fz_open_document "in.pdf"; ev_fz_load_page 0] /\
  opened (trace r.2) = opened (trace demo_world).
Proof.
  apply (page_load_failure_no_output empty_services demo_environment "prog" "in.pdf" "out"
           demo_world (mk_document [])).
  - vm_compute. reflexivity.
  - reflexivity.
Defined.

(** X3: whatever the arguments, the environment and the world, a run
    opens at most one file for writing, and then it is the output name built
    from its third argument, in mode "wb"; a run that opens none leaves the
    file system as it was. *)
Theorem only_output_opened (L : services) (E : environment) (argv : list string)
    (wd : world) :
  exists evs,
    trace (run L E argv wd).2 = trace wd ++ evs /\
    ((opened evs = [] /\ fs (run L E argv wd).2 = fs wd) \/
     (length argv = 3%nat /\ opened evs = [(out_name (nth 2 argv ""), "wb")])).
Proof.
  destruct (argv_cases argv) as [Hargc|(prog & inp & prefix & ->)].
  { rewrite run_usage by done. eexists. split; [reflexivity|]. by left. }
  destruct (document_at L E wd inp) as [doc|] eqn:Hdoc.
  2:{ rewrite run_open_fails by done. eexists. split; [reflexivity|]. by left. }
  destruct (first_page doc) as [page|] eqn:Hpage.
  2:{ rewrite (run_load_fails L E prog inp prefix wd doc) by done.
      exists [ev_fz_open_document inp; ev_fz_load_page 0].
      split; [cbn; by rewrite <- app_assoc|]. by left. }
  destruct (run_renders_trace L E prog inp prefix wd doc page Hdoc Hpage) as (tail & Htr & Htail).
  eexists. split; [exact Htr|]. right. split; [done|].
  rewrite !opened_app, opened_encoder, (opened_stdout tail Htail). done.
Qed.

Lemma substring_length (s : string) (k : nat) :
  String.length (String.substring 0 k s) = Nat.min k (String.length s).
Proof.
  revert k. induction s as [|c s IH]; intros k.
  - destruct k; simpl; lia.
  - destruct k as [|k]; simpl; [done|]. by rewrite IH.
Qed.

Lemma substring_prefix (s : string) (k : nat) :
  exists rest, s = String.substring 0 k s +:+ rest.
Proof.
  revert k. induction s as [|c s IH]; intros k.
  - exists EmptyString. by destruct k.
  - destruct k as [|k].
    + by exists (String c s).
    + destruct (IH k) as [rest Hrest]. exists rest.
      change (String c s = String c (String.substring 0 k s +:+ rest)).
      by rewrite <- Hrest.
Qed.

(** X5: the output name never exceeds the 255 characters the 256-byte
    buffer of line 62 can hold: its length is the smaller of 255 and the
    length of the prefix plus 4, and it is an initial part of
    [<prefix>.png]. *)
Theorem out_name_fits (prefix : string) :
  String.length (out_name prefix) = Nat.min 255 (String.length prefix + 4) /\
  exists rest, prefix +:+ ".png" = out_name prefix +:+ rest.
Proof.
  unfold out_name, snprintf. split.
  - rewrite substring_length, length_append. done.
  - apply substring_prefix.
Qed.

(** X6: when the page has been rendered but the output cannot be opened,
    the run ends with status 2 after exactly one [fopen] attempt and one
    line on standard error, "fopen: " followed by the system's message; no
    libpng call is made, nothing is printed on standard output and the
    file system is as before. *)
Theorem output_refused (L : services) (E : environment) (prog inp prefix : string)
    (wd : world) (doc : fz_document) (page : fz_page) :
  document_at L E wd inp = Some doc ->
  first_page doc = Some page ->
  writable E (out_name prefix) = false ->
  let r := run L E [prog; inp; prefix] wd in
  r.1 = Exited 2 /\
  fs r.2 = fs wd /\
  trace r.2 = trace wd ++ render_events E inp page
                ++ [ev_fopen (out_name prefix) "wb";
                    ev_stderr ("fopen: " +:+ strerror E +:+ newline)].
Proof.
  intros Hdoc Hpage Hwr r. unfold r.
  rewrite (run_renders L E prog inp prefix wd doc page Hdoc Hpage).
  unfold encoded. rewrite Hwr. cbn.
  split; [done|]. split; [done|].
  pose proof (rendered_trace L E inp page wd) as Htr. unfold rendered in Htr.
  cbn in Htr. rewrite Htr. by rewrite <- !app_assoc.
Qed.

Lemma output_refused_witness :
  let r := run demo_services readonly_environment ["prog"; "in.pdf"; "out"] demo_world in
  r.1 = Exited 2 /\
  fs r.2 = fs demo_world /\
  trace r.2 = trace demo_world ++ render_events readonly_environment "in.pdf" demo_page
                ++ [ev_fopen (out_name "out") "wb";
                    ev_stderr ("fopen: " +:+ strerror readonly_environment +:+ newline)].
Proof.
  apply (output_refused demo_services readonly_environment "prog" "in.pdf" "out" demo_world
           demo_document demo_page).
  - vm_compute. reflexivity.
  - reflexivity.
  - reflexivity.
Defined.

(** X7: for a pixmap whose rows go upwards in memory ([stride] not
    negative) and whose buffer lies inside the 64-bit address space, the
    loop of lines 28-30 builds a table of exactly h pointers; entry y is
    [samples + y * stride], neither the [size_t] product nor the pointer sum
    wraps, and the [stride] bytes from it lie inside the buffer.  For a
    height of zero or less the table is empty. *)
Theorem row_table (pix : fz_pixmap) :
  0 <= stride pix ->
  0 <= samples pix < 2 ^ SIZE_WIDTH ->
  samples pix + stride pix * h pix <= 2 ^ SIZE_WIDTH ->
  length (build_rows pix) = Z.to_nat (h pix) /\
  (forall row, 0 <= row < h pix ->
     build_rows pix !! Z.to_nat row = Some (samples pix + row * stride pix) /\
     size_t (samples pix + size_t (row * stride pix)) = samples pix + row * stride pix /\
     samples pix + row * stride pix + stride pix <= samples pix + stride pix * h pix) /\
  (h pix <= 0 -> build_rows pix = []).
Proof.
  intros Hs Hp Hfit. rewrite build_rows_eq. split; [|split].
  - by rewrite length_fmap, length_seqZ.
  - intros row Hrow.
    assert (Hoff : 0 <= row * stride pix < 2 ^ SIZE_WIDTH) by nia.
    assert (Hsum : 0 <= samples pix + row * stride pix < 2 ^ SIZE_WIDTH) by nia.
    split; [|split].
    + rewrite list_lookup_fmap.
      rewrite (proj2 (lookup_seqZ 0 (h pix) (Z.to_nat row) row)) by lia.
      unfold row_offset, size_t. simpl. by rewrite Z.mod_small.
    + unfold size_t. rewrite (Z.mod_small (row * stride pix)) by exact Hoff.
      apply Z.mod_small. exact Hsum.
    + nia.
  - intros Hle. by rewrite seqZ_nil.
Qed.

Lemma row_table_witness :
  length (build_rows demo_pixmap) = Z.to_nat (h demo_pixmap) /\
  (build_rows demo_pixmap !! Z.to_nat 2 = Some (samples demo_pixmap + 2 * stride demo_pixmap) /\
   size_t (samples demo_pixmap + size_t (2 * stride demo_pixmap))
     = samples demo_pixmap + 2 * stride demo_pixmap /\
   samples demo_pixmap + 2 * stride demo_pixmap + stride demo_pixmap
     <= samples demo_pixmap + stride demo_pixmap * h demo_pixmap) /\
  build_rows (mk_pixmap 0 0 5 0 2 1 10 4096) = [].
Proof.
  assert (Hdemo : 0 <= stride demo_pixmap /\ 0 <= samples demo_pixmap < 2 ^ SIZE_WIDTH /\
                  samples demo_pixmap + stride demo_pixmap * h demo_pixmap <= 2 ^ SIZE_WIDTH).
  { vm_compute. repeat split; (discriminate || reflexivity). }
  destruct Hdemo as (Hs & Hp & Hfit).
  destruct (row_table demo_pixmap Hs Hp Hfit) as (Hlen & Hrow & _).
  assert (Hnil : build_rows (mk_pixmap 0 0 5 0 2 1 10 4096) = []).
  { apply (row_table (mk_pixmap 0 0 5 0 2 1 10 4096)); vm_compute;
      repeat split; (discriminate || reflexivity). }
  split; [exact Hlen|]. split; [|exact Hnil].
  apply Hrow. vm_compute. split; [discriminate|reflexivity].
Defined.

(** X8: once [fopen] has succeeded, whatever happens next, the output
    path holds exactly what libpng has emitted: nothing if it failed before
    the header was written, otherwise the stream of the writer's final
    state, partial when a later call failed.  What was at that path before
    is gone and no other path has changed. *)
Theorem file_holds_stream (L : services) (E : environment) (pix : fz_pixmap)
    (buf : list byte) (fname : string) (wd : world) :
  encodable pix buf (mem wd) ->
  writable E fname = true ->
  let r := write_png_fast L E pix fname wd in
  fs r.2 = <[fname := if info_written (png r.2) then png_bytes L (png r.2) else []]> (fs wd).
Proof.
  intros (Hw & Hsz & Hfit & Hh) Hwr r. unfold r.
  rewrite (write_png_fast_spec L E pix buf fname wd Hw Hsz Hh).
  rewrite encoded_fs_eq, encoded_png_eq. unfold encoded_fs, encoded_png. rewrite Hwr.
  change (height (gray_IHDR pix)) with (h pix).
  destruct (png_fault E call_set_IHDR); [done|].
  destruct (png_fault E call_write_info); [done|]. cbn zeta.
  case_decide; [destruct (png_fault E call_write_end)|]; done.
Qed.

Lemma file_holds_stream_witness :
  let r := write_png_fast demo_services faulty_environment demo_pixmap "out.png"
             demo_rendered in
  fs r.2 = <[ "out.png" := if info_written (png r.2)
                           then png_bytes demo_services (png r.2) else []]>
             (fs demo_rendered).
Proof.
  apply (file_holds_stream demo_services faulty_environment demo_pixmap demo_buffer
           "out.png" demo_rendered).
  - exact demo_encodable.
  - reflexivity.
Defined.

(** ** What the encoder logs *)

Lemma closed_app (tr1 tr2 : list event) : closed (tr1 ++ tr2) = closed tr1 ++ closed tr2.
Proof. apply omap_app. Qed.

Lemma closed_row_events (rows : list (Z * list byte)) : closed (row_events rows) = [].
Proof. induction rows as [|r rows IH]; [done|]. exact IH. Qed.

Lemma stdouts_app (tr1 tr2 : list event) : stdouts (tr1 ++ tr2) = stdouts tr1 ++ stdouts tr2.
Proof. apply omap_app. Qed.

Lemma stdouts_row_events (rows : list (Z * list byte)) : stdouts (row_events rows) = [].
Proof. induction rows as [|r rows IH]; [done|]. exact IH. Qed.

(** The encoder's events when the output opens and the header goes out. *)
Lemma encoder_trace_rows (E : environment) (pix : fz_pixmap) (buf : list byte)
    (fname : string) :
  writable E fname = true ->
  png_fault E call_set_IHDR = false ->
  png_fault E call_write_info = false ->
  encoder_trace E pix buf fname =
  [ev_fopen fname "wb"; ev_png_set_compression_level 1;
   ev_png_set_IHDR (gray_IHDR pix); ev_png_write_info]
  ++ row_events (take (rows_ok E 0 (Z.to_nat (h pix))) (scan pix buf))
  ++ (if decide (rows_ok E 0 (Z.to_nat (h pix)) = Z.to_nat (h pix))
      then [ev_png_write_end] else [])
  ++ [ev_fclose fname].
Proof.
  intros Hwr F1 F2. unfold encoder_trace. rewrite Hwr, F1, F2. cbn zeta.
  by case_decide.
Qed.

Lemma closed_encoder (E : environment) (pix : fz_pixmap) (buf : list byte) (fname : string) :
  closed (encoder_trace E pix buf fname) = if writable E fname then [fname] else [].
Proof.
  destruct (writable E fname) eqn:Hwr; [|unfold encoder_trace; by rewrite Hwr].
  destruct (png_fault E call_set_IHDR) eqn:F1.
  { unfold encoder_trace. by rewrite Hwr, F1. }
  destruct (png_fault E call_write_info) eqn:F2.
  { unfold encoder_trace. by rewrite Hwr, F1, F2. }
  rewrite encoder_trace_rows by done.
  rewrite !closed_app, closed_row_events. by case_decide.
Qed.

Lemma stdouts_encoder (E : environment) (pix : fz_pixmap) (buf : list byte) (fname : string) :
  stdouts (encoder_trace E pix buf fname) = [].
Proof.
  destruct (writable E fname) eqn:Hwr; [|unfold encoder_trace; by rewrite Hwr].
  destruct (png_fault E call_set_IHDR) eqn:F1.
  { unfold encoder_trace. by rewrite Hwr, F1. }
  destruct (png_fault E call_write_info) eqn:F2.
  { unfold encoder_trace. by rewrite Hwr, F1, F2. }
  rewrite encoder_trace_rows by done.
  rewrite !stdouts_app, stdouts_row_events. by case_decide.
Qed.

Lemma last_encoder (E : environment) (pix : fz_pixmap) (buf : list byte) (fname : string) :
  writable E fname = true ->
  last (encoder_trace E pix buf fname) = Some (ev_fclose fname).
Proof.
  intros Hwr.
  destruct (png_fault E call_set_IHDR) eqn:F1.
  { unfold encoder_trace. by rewrite Hwr, F1. }
  destruct (png_fault E call_write_info) eqn:F2.
  { unfold encoder_trace. by rewrite Hwr, F1, F2. }
  rewrite encoder_trace_rows by done. rewrite !app_assoc. apply last_snoc.
Qed.

(** X9: in every run of the encoder the output is opened exactly once,
    first of all and in mode "wb"; when the open succeeds the file is
    closed exactly once, as the last thing the encoder does, on the success
    path and on every libpng failure alike; when it fails nothing is
    closed. *)
Theorem handle_closed_once (L : services) (E : environment) (pix : fz_pixmap)
    (buf : list byte) (fname : string) (wd : world) :
  encodable pix buf (mem wd) ->
  exists evs,
    trace (write_png_fast L E pix fname wd).2 = trace wd ++ evs /\
    head evs = Some (ev_fopen fname "wb") /\
    opened evs = [(fname, "wb")] /\
    closed evs = (if writable E fname then [fname] else []) /\
    (writable E fname = true -> last evs = Some (ev_fclose fname)).
Proof.
  intros (Hw & Hsz & Hfit & Hh).
  rewrite (write_png_fast_spec L E pix buf fname wd Hw Hsz Hh).
  exists (encoder_trace E pix buf fname). split; [apply encoded_trace_eq|].
  split; [done|]. split; [apply opened_encoder|]. split; [apply closed_encoder|].
  apply last_encoder.
Qed.

Lemma handle_closed_once_witness :
  exists evs,
    trace (write_png_fast demo_services faulty_environment demo_pixmap "out.png"
             demo_rendered).2 = trace demo_rendered ++ evs /\
    head evs = Some (ev_fopen "out.png" "wb") /\
    opened evs = [("out.png", "wb")] /\
    closed evs = (if writable faulty_environment "out.png" then ["out.png"] else []) /\
    (writable faulty_environment "out.png" = true -> last evs = Some (ev_fclose "out.png")).
Proof.
  apply (handle_closed_once demo_services faulty_environment demo_pixmap demo_buffer
           "out.png" demo_rendered).
  exact demo_encodable.
Defined.

(** X10: the encoder only reads the pixel buffer: in every environment
    memory is after [write_png_fast] what it was before, so the buffer
    still holds the rendered samples. *)
Theorem encoder_keeps_buffer (L : services) (E : environment) (pix : fz_pixmap)
    (buf : list byte) (fname : string) (wd : world) :
  encodable pix buf (mem wd) ->
  let r := write_png_fast L E pix fname wd in
  mem r.2 = mem wd /\ holds (mem r.2) (samples pix) buf.
Proof.
  intros (Hw & Hsz & Hfit & Hh) r. unfold r.
  rewrite (write_png_fast_spec L E pix buf fname wd Hw Hsz Hh).
  rewrite encoded_mem. done.
Qed.

Lemma encoder_keeps_buffer_witness :
  let r := write_png_fast demo_services demo_environment demo_pixmap "out.png"
             demo_rendered in
  mem r.2 = mem demo_rendered /\ holds (mem r.2) (samples demo_pixmap) demo_buffer.
Proof.
  apply (encoder_keeps_buffer demo_services demo_environment demo_pixmap demo_buffer
           "out.png" demo_rendered).
  exact demo_encodable.
Defined.

Lemma rows_ok_first_fault (E : environment) (count i k : nat) :
  (k < count)%nat ->
  (forall j, (j < k)%nat -> png_fault E (call_write_row (i + j)) = false) ->
  png_fault E (call_write_row (i + k)) = true ->
  rows_ok E i count = k.
Proof.
  revert i k. induction count as [|c IH]; intros i k Hk Hbefore Hat; [lia|].
  simpl. destruct k as [|k].
  - rewrite Nat.add_0_r in Hat. by rewrite Hat.
  - pose proof (Hbefore O ltac:(lia)) as H0. rewrite Nat.add_0_r in H0. rewrite H0.
    f_equal. apply IH; [lia| |].
    + intros j Hj. replace (S i + j)%nat with (i + S j)%nat by lia. apply Hbefore. lia.
    + by replace (S i + k)%nat with (i + S k)%nat by lia.
Qed.

(** X11: when the header goes out and libpng first fails at row k, the
    encoder has emitted exactly the scanlines of rows 0 to k-1, in order,
    those rows are what the writer holds, and it ends with status 3. *)
Theorem scanlines_until_fault (L : services) (E : environment) (pix : fz_pixmap)
    (buf : list byte) (fname : string) (wd : world) (k : nat) :
  encodable pix buf (mem wd) ->
  writable E fname = true ->
  png_fault E call_set_IHDR = false ->
  png_fault E call_write_info = false ->
  (k < Z.to_nat (h pix))%nat ->
  (forall j, (j < k)%nat -> png_fault E (call_write_row j) = false) ->
  png_fault E (call_write_row k) = true ->
  let r := write_png_fast L E pix fname wd in
  r.1 = Stop (Exited 3) /\
  scanlines (trace r.2) = scanlines (trace wd) ++ take k (rows_at pix buf) /\
  rows_written (png r.2) = (take k (rows_at pix buf)).*2.
Proof.
  intros (Hw & Hsz & Hfit & Hh) Hwr F1 F2 Hk Hbefore Hat r. unfold r.
  assert (Hrows : rows_ok E 0 (Z.to_nat (h pix)) = k).
  { apply rows_ok_first_fault; done. }
  rewrite (write_png_fast_spec L E pix buf fname wd Hw Hsz Hh).
  rewrite encoded_result_eq, encoded_trace_eq, encoded_png_eq.
  rewrite encoder_trace_rows by done.
  unfold encoded_result, encoded_png. rewrite Hwr, F1, F2. cbn zeta. rewrite Hrows.
  rewrite !decide_False by lia.
  unfold rows_at. rewrite <- (scan_exact pix buf) by (done || lia).
  split; [done|]. split.
  - rewrite !scanlines_app, scanlines_row_events. cbn. by rewrite app_nil_r.
  - cbn. by rewrite fmap_take.
Qed.

Lemma scanlines_until_fault_witness :
  let r := write_png_fast demo_services faulty_environment demo_pixmap "out.png"
             demo_rendered in
  r.1 = Stop (Exited 3) /\
  scanlines (trace r.2) = scanlines (trace demo_rendered)
                            ++ take 1 (rows_at demo_pixmap demo_buffer) /\
  rows_written (png r.2) = (take 1 (rows_at demo_pixmap demo_buffer)).*2.
Proof.
  apply (scanlines_until_fault demo_services faulty_environment demo_pixmap demo_buffer
           "out.png" demo_rendered 1).
  - exact demo_encodable.
  - reflexivity.
  - reflexivity.
  - reflexivity.
  - vm_compute. lia.
  - intros j Hj. assert (j = O) as -> by lia. reflexivity.
  - reflexivity.
Defined.

Lemma scan_row_length (pix : fz_pixmap) (buf : list byte) :
  0 <= w pix <= stride pix ->
  Z.of_nat (length buf) = stride pix * h pix ->
  Forall (fun row => Z.of_nat (length row) = w pix) (scan pix buf).*2.
Proof.
  intros Hw Hsz. apply Forall_fmap, Forall_forall.
  intros r (row & Hrow & ->)%scan_elem. simpl.
  pose proof (row_offset_bounds pix row ltac:(lia) ltac:(lia)) as Hoff.
  unfold row_of. rewrite length_take, length_drop.
  assert (row_offset pix row + w pix <= stride pix * h pix) by nia. lia.
Qed.

Lemma png_complete_rows (pix : fz_pixmap) (buf : list byte) (fname : string) :
  rows_written (png_complete pix buf fname) = (scan pix buf).*2.
Proof. done. Qed.

(** X12: on a successful run the stream on file is a complete image
    whose data match its header: the writer holds the header, one row per
    line of the declared height, each of exactly the declared width in
    bytes, the trailer, compression level 1, and it is bound to the output
    name. *)
Theorem image_matches_header (L : services) (E : environment) (prog inp prefix : string)
    (wd : world) (doc : fz_document) (page : fz_page) :
  document_at L E wd inp = Some doc ->
  first_page doc = Some page ->
  writable E (out_name prefix) = true ->
  no_png_fault E ->
  let p := png (run L E [prog; inp; prefix] wd).2 in
  exists hdr,
    IHDR p = Some hdr /\
    length (rows_written p) = Z.to_nat (height hdr) /\
    Forall (fun row => Z.of_nat (length row) = width hdr) (rows_written p) /\
    info_written p = true /\ end_written p = true /\
    zlib_level p = 1 /\ io_ptr p = Some (out_name prefix).
Proof.
  intros Hdoc Hpage Hwr Hno p. unfold p.
  rewrite (run_renders L E prog inp prefix wd doc page Hdoc Hpage).
  destruct (encoded_success L E (page_pixmap E page) (drawn L page (page_pixmap E page))
              (out_name prefix) (rendered L E inp page wd) Hwr Hno)
    as (wd1 & -> & Hpng & _).
  destruct (finished_ok L E prefix (clock E (ticks wd)) wd1) as (wd2 & -> & _ & Hpng2 & _).
  cbn [snd]. rewrite Hpng2, Hpng.
  destruct (page_pixmap_shape E page) as (Hw & Hh & Hsz).
  exists (gray_IHDR (page_pixmap E page)).
  rewrite png_complete_rows.
  split; [done|]. split.
  { rewrite length_fmap, scan_length. done. }
  split; [|done].
  apply (scan_row_length (page_pixmap E page)); [done|]. by apply drawn_length.
Qed.

Lemma image_matches_header_witness :
  let p := png (run demo_services demo_environment ["prog"; "in.pdf"; "out"] demo_world).2 in
  exists hdr,
    IHDR p = Some hdr /\
    length (rows_written p) = Z.to_nat (height hdr) /\
    Forall (fun row => Z.of_nat (length row) = width hdr) (rows_written p) /\
    info_written p = true /\ end_written p = true /\
    zlib_level p = 1 /\ io_ptr p = Some (out_name "out").
Proof.
  apply (image_matches_header demo_services demo_environment "prog" "in.pdf" "out"
           demo_world demo_document demo_page).
  - vm_compute. reflexivity.
  - reflexivity.
  - reflexivity.
  - intros c. reflexivity.
Defined.

Lemma stdouts_render_events (E : environment) (inp : string) (page : fz_page) :
  stdouts (render_events E inp page) = [].
Proof. done. Qed.

(** X13: a run prints on standard output only when it succeeds, and then
    exactly one line, its last action: it names the output file as it was
    opened and gives the time between the run's first and second clock
    readings, the only two it takes.  Any other ending prints nothing
    there; a run that stops at the document, the page, [fopen] or libpng has
    read the clock once, so the first reading precedes the document and the
    second follows the encoder, and a usage error reads no clock at all. *)
Theorem stdout_report (L : services) (E : environment) (argv : list string) (wd : world) :
  exists evs,
    trace (run L E argv wd).2 = trace wd ++ evs /\
    ((run L E argv wd).1 = Exited 0 ->
     exists prog inp prefix,
       argv = [prog; inp; prefix] /\
       stdouts evs = [success_line L prefix (clock E (ticks wd)) (clock E (S (ticks wd)))] /\
       last evs = Some (ev_stdout (success_line L prefix (clock E (ticks wd))
                                                 (clock E (S (ticks wd))))) /\
       ticks (run L E argv wd).2 = S (S (ticks wd))) /\
    ((run L E argv wd).1 <> Exited 0 ->
     stdouts evs = [] /\
     ticks (run L E argv wd).2 =
       if decide (length argv = 3%nat) then S (ticks wd) else ticks wd).
Proof.
  destruct (argv_cases argv) as [Hargc|(prog & inp & prefix & ->)].
  { rewrite run_usage by done. eexists. split; [reflexivity|]. split; [discriminate|].
    intros _. by rewrite decide_False. }
  destruct (document_at L E wd inp) as [doc|] eqn:Hdoc.
  2:{ rewrite run_open_fails by done. eexists. split; [reflexivity|].
      split; [discriminate|done]. }
  destruct (first_page doc) as [page|] eqn:Hpage.
  2:{ rewrite (run_load_fails L E prog inp prefix wd doc) by done.
      exists [ev_fz_open_document inp; ev_fz_load_page 0].
      split; [cbn; by rewrite <- app_assoc|]. split; [discriminate|done]. }
  rewrite (run_renders L E prog inp prefix wd doc page Hdoc Hpage).
  set (pix := page_pixmap E page). set (buf := drawn L page pix).
  pose proof (encoded_trace_eq L E pix buf (out_name prefix) (rendered L E inp page wd)) as Htr.
  pose proof (encoded_ticks L E pix buf (out_name prefix) (rendered L E inp page wd)) as Htk.
  pose proof (encoded_result_eq L E pix buf (out_name prefix) (rendered L E inp page wd)) as Hres.
  rewrite rendered_trace in Htr.
  destruct (encoded L E pix buf (out_name prefix) (rendered L E inp page wd))
    as [[[]| |o] wd'] eqn:Henc; cbn [fst snd] in Htr, Htk, Hres.
  - exists (render_events E inp page ++ encoder_trace E pix buf (out_name prefix)
            ++ [ev_stdout (success_line L prefix (clock E (ticks wd)) (clock E (S (ticks wd))))]).
    split.
    { cbn [finished snd trace emit tick]. rewrite Htr, Htk. rewrite <- !app_assoc. done. }
    split; [|done]. intros _. exists prog, inp, prefix. split; [done|]. split; [|split].
    + by rewrite !stdouts_app, stdouts_render_events, stdouts_encoder.
    + rewrite !app_assoc. apply last_snoc.
    + cbn [finished snd ticks emit tick]. by rewrite Htk.
  - exists (render_events E inp page ++ encoder_trace E pix buf (out_name prefix)).
    split; [cbn; by rewrite Htr, <- app_assoc|]. split; [discriminate|]. intros _. split.
    + by rewrite !stdouts_app, stdouts_render_events, stdouts_encoder.
    + cbn [finished snd]. by rewrite Htk.
  - exists (render_events E inp page ++ encoder_trace E pix buf (out_name prefix)).
    split; [cbn; by rewrite Htr, <- app_assoc|]. split.
    + cbn. intros ->.
      destruct (encoded_result_cases E (h pix) (out_name prefix)) as [H|[H|H]];
        rewrite H in Hres; discriminate.
    + intros _. split.
      * by rewrite !stdouts_app, stdouts_render_events, stdouts_encoder.
      * cbn [finished snd]. by rewrite Htk.
Qed.

Lemma stdout_report_witness :
  exists evs,
    trace (run demo_services demo_environment ["prog"; "in.pdf"; "out"] demo_world).2
      = trace demo_world ++ evs /\
    stdouts evs = [success_line demo_services "out"
                     (clock demo_environment 0) (clock demo_environment 1)] /\
    last evs = Some (ev_stdout (success_line demo_services "out"
                                  (clock demo_environment 0) (clock demo_environment 1))) /\
    ticks (run demo_services demo_environment ["prog"; "in.pdf"; "out"] demo_world).2 = 2%nat.
Proof.
  destruct (stdout_report demo_services demo_environment ["prog"; "in.pdf"; "out"] demo_world)
    as (evs & Htr & Hok & _).
  exists evs. split; [exact Htr|].
  destruct Hok as (prog & inp & prefix & Hargv & Hout).
  - vm_compute. reflexivity.
  - injection Hargv as <- <- <-. exact Hout.
Defined.




Lemma finished_png (L : services) (E : environment) (prefix : string) (t0 : timespec)
    (r : result unit * world) :
  png (finished L E prefix t0 r).2 = png r.2.
Proof. by destruct r as [[[]| |o] wd']. Qed.

(** X16: nothing guards against an output name equal to the input path:
    when they coincide and the path can be opened for writing, the run
    replaces the document by what libpng emitted, the complete image on
    success, a partial stream or nothing when libpng fails. *)
Theorem input_overwritten (L : services) (E : environment) (prog inp prefix : string)
    (wd : world) (doc : fz_document) (page : fz_page) :
  document_at L E wd inp = Some doc ->
  first_page doc = Some page ->
  out_name prefix = inp ->
  writable E inp = true ->
  let r := run L E [prog; inp; prefix] wd in
  fs r.2 !! inp = Some (if info_written (png r.2) then png_bytes L (png r.2) else []).
Proof.
  intros Hdoc Hpage Hname Hwr r. unfold r.
  rewrite (run_renders L E prog inp prefix wd doc page Hdoc Hpage).
  rewrite finished_fs, finished_png, encoded_fs_eq, encoded_png_eq.
  unfold encoded_fs, encoded_png. rewrite Hname, Hwr.
  change (height (gray_IHDR (page_pixmap E page))) with (h (page_pixmap E page)).
  destruct (png_fault E call_set_IHDR); [by rewrite lookup_insert_eq|].
  destruct (png_fault E call_write_info); [by rewrite lookup_insert_eq|]. cbn zeta.
  case_decide; [destruct (png_fault E call_write_end)|]; by rewrite lookup_insert_eq.
Qed.

Lemma input_overwritten_witness :
  let r := run demo_services demo_environment ["prog"; "in.png"; "in"] clash_world in
  fs r.2 !! "in.png"
  = Some (if info_written (png r.2) then png_bytes demo_services (png r.2) else []).
Proof.
  apply (input_overwritten demo_services demo_environment "prog" "in.png" "in" clash_world
           demo_document demo_page).
  - vm_compute. reflexivity.
  - reflexivity.
  - vm_compute. reflexivity.
  - reflexivity.
Defined.

Lemma encoded_fs_at (L : services) (E : environment) (hdr : png_IHDR)
    (rows : list (list byte)) (fname : string) (g1 g2 : gmap string (list byte)) :
  g1 !! fname = g2 !! fname ->
  encoded_fs L E hdr rows fname g1 !! fname = encoded_fs L E hdr rows fname g2 !! fname.
Proof.
  intros Hg. unfold encoded_fs.
  destruct (writable E fname); [|done].
  destruct (png_fault E call_set_IHDR); [by rewrite !lookup_insert_eq|].
  destruct (png_fault E call_write_info); [by rewrite !lookup_insert_eq|]. cbn zeta.
  case_decide; [destruct (png_fault E call_write_end)|]; by rewrite !lookup_insert_eq.
Qed.

(** X17: only page 0 is ever used: two documents with the same first
    page, whatever their other pages and wherever they are read from, make
    the run end the same way and leave the same content at the output name
    (given the same content there before). *)
Theorem only_first_page (L : services) (E : environment) (prog inp1 inp2 prefix : string)
    (wd1 wd2 : world) (doc1 doc2 : fz_document) (page : fz_page) :
  document_at L E wd1 inp1 = Some doc1 ->
  document_at L E wd2 inp2 = Some doc2 ->
  first_page doc1 = Some page ->
  first_page doc2 = Some page ->
  fs wd1 !! out_name prefix = fs wd2 !! out_name prefix ->
  let r1 := run L E [prog; inp1; prefix] wd1 in
  let r2 := run L E [prog; inp2; prefix] wd2 in
  r1.1 = r2.1 /\ fs r1.2 !! out_name prefix = fs r2.2 !! out_name prefix.
Proof.
  intros Hdoc1 Hdoc2 Hp1 Hp2 Hout r1 r2. unfold r1, r2.
  rewrite (run_renders_outcome L E prog inp1 prefix wd1 doc1 page Hdoc1 Hp1).
  rewrite (run_renders_outcome L E prog inp2 prefix wd2 doc2 page Hdoc2 Hp2).
  rewrite (run_renders_fs L E prog inp1 prefix wd1 doc1 page Hdoc1 Hp1).
  rewrite (run_renders_fs L E prog inp2 prefix wd2 doc2 page Hdoc2 Hp2).
  split; [done|]. by apply encoded_fs_at.
Qed.

Lemma only_first_page_witness :
  let r1 := run paged_services demo_environment ["prog"; "one.pdf"; "out"] paged_world in
  let r2 := run paged_services demo_environment ["prog"; "two.pdf"; "out"] paged_world in
  r1.1 = r2.1 /\ fs r1.2 !! out_name "out" = fs r2.2 !! out_name "out".
Proof.
  apply (only_first_page paged_services demo_environment "prog" "one.pdf" "two.pdf" "out"
           paged_world paged_world
           (mk_document [demo_page]) (mk_document [demo_page; letter_page]) demo_page).
  - vm_compute. reflexivity.
  - vm_compute. reflexivity.
  - reflexivity.
  - reflexivity.
  - reflexivity.
Defined.
